(** * Undo/redo history of the Outline editor

    A shallow embedding of
    [packages/outline-react/src/shared/useOutlineHistory.js]: the
    merge-decision function [getMergeAction] and the three listeners that
    [useOutlineHistory] installs ([applyChange], [undo], [redo]), together
    with the setter [setHistoryState] that the hook hands back.

    View models are JavaScript objects: they are compared by identity
    ([viewModel === current]), kept in a module-level set
    ([viewModelsWithoutHistory]) and mutated in place ([markDirty]).  They
    are therefore modelled as references into a store of objects, and every
    operation threads the whole world (store, exemption set, history state,
    calls made on the editor) through a small state monad. *)

From stdpp Require Import gmap strings list.
From Stdlib Require Import ZArith Lia.

Open Scope Z_scope.

(** ** Nodes, selections and view models *)

Module Outline.

Definition NodeKey := string.

(** Modelled from the spec: the node classes of the [outline] package are
    not part of the sources at hand.  The history code reads [__key] and
    [__flags] of any node, tests [isTextNode] and reads [__text] of text
    nodes only; a node is therefore a text node carrying a text payload, or
    a node of some other kind.  A JavaScript string is used through
    [=== ''] and [.length] only. *)
Inductive OutlineNode :=
| TextNode (key : NodeKey) (flags : Z) (text : string)
| BlockNode (key : NodeKey) (flags : Z).

Definition __key (n : OutlineNode) : NodeKey :=
  match n with TextNode k _ _ => k | BlockNode k _ => k end.

Definition __flags (n : OutlineNode) : Z :=
  match n with TextNode _ f _ => f | BlockNode _ f => f end.

Definition isTextNode (n : OutlineNode) : bool :=
  match n with TextNode _ _ _ => true | BlockNode _ _ => false end.

(** Modelled from the spec: the selection descriptor (anchor node identifier
    and anchor offset).  Offsets are JavaScript numbers holding integers. *)
Record Selection := {
  anchorKey : NodeKey;
  anchorOffset : Z;
}.

(** Modelled from the spec: the [ViewModel] class of the [outline] package
    is not part of the sources at hand.  A snapshot exposes a dirty flag,
    its dirty content nodes, a node map from identifiers to nodes and a
    selection that may be absent.  The fields [_nodeMap] and [_selection]
    are read by the history code; of the methods [getDirtyNodes()],
    [hasDirtyNodes()] and [isDirty()] only the results are known, so each
    result is a field of its own and nothing is assumed about how the class
    relates them. *)
Record ViewModel := {
  _nodeMap : gmap NodeKey OutlineNode;
  _selection : option Selection;
  getDirtyNodes : list OutlineNode;
  hasDirtyNodes : bool;
  isDirty : bool;
}.

(** [markDirty()] sets the dirty flag and nothing else. *)
Definition markDirty (vm : ViewModel) : ViewModel :=
  {| _nodeMap := _nodeMap vm;
     _selection := _selection vm;
     getDirtyNodes := getDirtyNodes vm;
     hasDirtyNodes := hasDirtyNodes vm;
     isDirty := true |}.

End Outline.

Import Outline.

(** ** The world the hook runs in *)

(** A reference to a view-model object; [===] on view models is equality of
    references. *)
Definition ViewModelRef := nat.

(** [historyState] of the hook.  Arrays are lists with the most recent entry
    last: [push] appends and [pop] removes the last element.  The closure
    variable [redoStack] of the effect and the field
    [historyState.redoStack] are assigned together, so they always name the
    same array and one field stands for both. *)
Record HistoryState := {
  current : option ViewModelRef;
  redoStack : list ViewModelRef;
  undoStack : list ViewModelRef;
}.

Record World := {
  (** the view-model objects, by reference *)
  heap : ViewModelRef -> ViewModel;
  (** the module-level set of [outline/HistoryHelpers] *)
  viewModelsWithoutHistory : gset ViewModelRef;
  historyState : HistoryState;
  (** the arguments of the calls [editor.setViewModel(...)] made so far,
      oldest first *)
  editorCalls : list ViewModelRef;
}.

(** ** A state monad with failure

    [None] stands for a run that leaves the typed fragment of JavaScript:
    the only such place is [pop] on an empty array, whose [undefined] the
    code would push on a stack of view models or call [markDirty] on. *)
Definition M (A : Type) : Type := World -> option (A * World).

Definition ret {A} (a : A) : M A := fun w => Some (a, w).

Definition bind {A B} (m : M A) (k : A -> M B) : M B :=
  fun w => match m w with
           | Some (a, w') => k a w'
           | None => None
           end.

Notation "'let*' x ':=' m 'in' k" := (bind m (fun x => k))
  (at level 10, x name, m at level 100, k at level 200).
Notation "m ';;' k" := (bind m (fun _ => k))
  (at level 100, k at level 200, right associativity).

Definition gets {A} (f : World -> A) : M A := fun w => Some (f w, w).
Definition modify (f : World -> World) : M unit := fun w => Some (tt, f w).
Definition throw {A} : M A := fun _ => None.

Definition with_history (f : HistoryState -> HistoryState) (w : World) : World :=
  {| heap := heap w;
     viewModelsWithoutHistory := viewModelsWithoutHistory w;
     historyState := f (historyState w);
     editorCalls := editorCalls w |}.

Definition deref (r : ViewModelRef) : M ViewModel := gets (fun w => heap w r).

(** [viewModelsWithoutHistory.has(r)] and [.delete(r)] *)
Definition WeakSet_has (r : ViewModelRef) : M bool :=
  gets (fun w => bool_decide (r ∈ viewModelsWithoutHistory w)).

Definition WeakSet_delete (r : ViewModelRef) : M unit :=
  modify (fun w =>
    {| heap := heap w;
       viewModelsWithoutHistory := viewModelsWithoutHistory w ∖ {[ r ]};
       historyState := historyState w;
       editorCalls := editorCalls w |}).

(** [r.markDirty()]: the object is changed in place, so every holder of the
    reference sees the flag. *)
Definition heap_markDirty (r : ViewModelRef) (h : ViewModelRef -> ViewModel)
  : ViewModelRef -> ViewModel :=
  fun r' => if decide (r' = r) then markDirty (h r') else h r'.

Definition ViewModel_markDirty (r : ViewModelRef) : M unit :=
  modify (fun w =>
    {| heap := heap_markDirty r (heap w);
       viewModelsWithoutHistory := viewModelsWithoutHistory w;
       historyState := historyState w;
       editorCalls := editorCalls w |}).

(** [editor.setViewModel(r)] *)
Definition editor_setViewModel (r : ViewModelRef) : M unit :=
  modify (fun w =>
    {| heap := heap w;
       viewModelsWithoutHistory := viewModelsWithoutHistory w;
       historyState := historyState w;
       editorCalls := editorCalls w ++ [r] |}).

Definition get_current : M (option ViewModelRef) :=
  gets (fun w => current (historyState w)).

Definition set_current (c : option ViewModelRef) : M unit :=
  modify (with_history (fun h =>
    {| current := c; redoStack := redoStack h; undoStack := undoStack h |})).

Definition set_redoStack (l : list ViewModelRef) : M unit :=
  modify (with_history (fun h =>
    {| current := current h; redoStack := l; undoStack := undoStack h |})).

Definition set_undoStack (l : list ViewModelRef) : M unit :=
  modify (with_history (fun h =>
    {| current := current h; redoStack := redoStack h; undoStack := l |})).

(** [Array.prototype.push] and [pop] on the two stacks. *)
Definition Array_push {A} (l : list A) (x : A) : list A := l ++ [x].

Definition Array_pop {A} (l : list A) : option (A * list A) :=
  match last l with
  | Some x => Some (x, removelast l)
  | None => None
  end.

Definition undoStack_push (r : ViewModelRef) : M unit :=
  let* l := gets (fun w => undoStack (historyState w)) in
  set_undoStack (Array_push l r).

Definition redoStack_push (r : ViewModelRef) : M unit :=
  let* l := gets (fun w => redoStack (historyState w)) in
  set_redoStack (Array_push l r).

Definition undoStack_pop : M ViewModelRef :=
  let* l := gets (fun w => undoStack (historyState w)) in
  match Array_pop l with
  | Some (x, l') => set_undoStack l' ;; ret x
  | None => throw
  end.

Definition redoStack_pop : M ViewModelRef :=
  let* l := gets (fun w => redoStack (historyState w)) in
  match Array_pop l with
  | Some (x, l') => set_redoStack l' ;; ret x
  | None => throw
  end.

(** ** The merge decision *)

Inductive MergeAction := MERGE | NO_MERGE | DISCARD.

Global Instance MergeAction_eq_dec : EqDecision MergeAction.
Proof. solve_decision. Defined.

(** The body of [if (dirtyNodes.length === 1) { ... }]: [Some a] when the
    block returns [a], [None] when control falls out of it to the final
    [return NO_MERGE]. *)
Definition singleDirtyNode (prevViewModel nextViewModel : ViewModel)
    (nextDirtyNode : OutlineNode) : option MergeAction :=
  let prevNodeMap := _nodeMap prevViewModel in
  let prevDirtyNodeKey := __key nextDirtyNode in
  match prevNodeMap !! prevDirtyNodeKey with
  | Some prevDirtyNode =>
    match prevDirtyNode, nextDirtyNode with
    | TextNode _ prevFlags prevText, TextNode _ nextFlags nextText =>
      if decide (prevFlags = nextFlags) then
        if decide (prevText = "") then Some NO_MERGE else
        let textDiff :=
          Z.of_nat (String.length nextText) - Z.of_nat (String.length prevText) in
        if decide (textDiff = 0) then Some MERGE else
        if decide (textDiff = -1 ∨ textDiff = 1) then
          match _selection nextViewModel, _selection prevViewModel with
          | Some selection, Some prevSelection =>
            if decide (anchorKey selection ≠ anchorKey prevSelection)
            then Some NO_MERGE else
            if decide (anchorOffset prevSelection = anchorOffset selection - 1)
            then Some MERGE else None
          | _, _ => Some MERGE
          end
        else None
      else None
    | _, _ => None
    end
  | None => None
  end.

Definition getMergeAction (prevViewModel : option ViewModelRef)
    (nextViewModel : ViewModelRef) : M MergeAction :=
  let* exempt := WeakSet_has nextViewModel in
  if exempt then
    WeakSet_delete nextViewModel ;;
    ret MERGE
  else
  match prevViewModel with
  | None => ret NO_MERGE
  | Some prevViewModel =>
    let* next := deref nextViewModel in
    let* prev := deref prevViewModel in
    if negb (hasDirtyNodes next) then ret DISCARD else
    let dirtyNodes := getDirtyNodes next in
    ret (default NO_MERGE
           match dirtyNodes with
           | [nextDirtyNode] => singleDirtyNode prev next nextDirtyNode
           | _ => None
           end)
  end.

(** ** The listeners and the setter *)

Definition applyChange (viewModel : ViewModelRef) : M unit :=
  let* current := get_current in
  if decide (Some viewModel = current) then ret tt else
  let* vm := deref viewModel in
  if negb (isDirty vm) then
    let* mergeAction := getMergeAction current viewModel in
    match mergeAction with
    | NO_MERGE =>
      let* redo := gets (fun w => redoStack (historyState w)) in
      (if decide (length redo ≠ 0%nat) then set_redoStack [] else ret tt) ;;
      match current with
      | Some c => undoStack_push c
      | None => ret tt
      end ;;
      set_current (Some viewModel)
    | DISCARD => ret tt
    | MERGE => set_current (Some viewModel)
    end
  else set_current (Some viewModel).

Definition undo : M unit :=
  let* undoStackLength := gets (fun w => length (undoStack (historyState w))) in
  if decide (undoStackLength ≠ 0%nat) then
    let* current := get_current in
    match current with
    | Some current =>
      let* cur := deref current in
      let* current :=
        if bool_decide (undoStackLength ≠ 1%nat) && negb (hasDirtyNodes cur)
        then undoStack_pop else ret current in
      redoStack_push current
    | None => ret tt
    end ;;
    let* viewModel := undoStack_pop in
    set_current (Some viewModel) ;;
    ViewModel_markDirty viewModel ;;
    editor_setViewModel viewModel
  else ret tt.

Definition redo : M unit :=
  let* redo := gets (fun w => redoStack (historyState w)) in
  if decide (length redo ≠ 0%nat) then
    let* current := get_current in
    match current with
    | Some current => undoStack_push current
    | None => ret tt
    end ;;
    let* viewModel := redoStack_pop in
    set_current (Some viewModel) ;;
    ViewModel_markDirty viewModel ;;
    editor_setViewModel viewModel
  else ret tt.

(** [splice(0, length, ...items)] replaces the whole content of the array. *)
Definition setHistoryState (undoStack' redoStack' : list ViewModelRef) : M unit :=
  set_undoStack undoStack' ;;
  set_redoStack redoStack'.

(** The state made by [useMemo]. *)
Definition initialHistoryState : HistoryState :=
  {| current := None; redoStack := []; undoStack := [] |}.

(** A history state written as current, undo stack, redo stack. *)
Definition historyOf (c : option ViewModelRef) (u r : list ViewModelRef)
  : HistoryState :=
  {| current := c; redoStack := r; undoStack := u |}.

(** The decision alone, without the world it leaves. *)
Definition mergeDecision (prevViewModel : option ViewModelRef)
    (nextViewModel : ViewModelRef) (w : World) : option MergeAction :=
  fst <$> getMergeAction prevViewModel nextViewModel w.

(** What [getMergeAction] computes once the exemption test has failed. *)
Definition contentDecision (prevViewModel : option ViewModelRef)
    (nextViewModel : ViewModelRef) (w : World) : MergeAction :=
  match prevViewModel with
  | None => NO_MERGE
  | Some prevViewModel =>
    if negb (hasDirtyNodes (heap w nextViewModel)) then DISCARD else
    default NO_MERGE
      match getDirtyNodes (heap w nextViewModel) with
      | [nextDirtyNode] =>
        singleDirtyNode (heap w prevViewModel) (heap w nextViewModel) nextDirtyNode
      | _ => None
      end
  end.

(** ** Concrete view models used by the examples *)

Module Examples.

Definition plainVM : ViewModel :=
  {| _nodeMap := ∅; _selection := None; getDirtyNodes := [];
     hasDirtyNodes := false; isDirty := false |}.

(** Text ["ab"] in node ["t"], caret after the second character. *)
Definition vm_ab : ViewModel :=
  {| _nodeMap := {[ "t"%string := TextNode "t" 0 "ab" ]};
     _selection := Some {| anchorKey := "t"; anchorOffset := 2 |};
     getDirtyNodes := [TextNode "t" 0 "ab"];
     hasDirtyNodes := true;
     isDirty := false |}.

(** Text ["abc"] in the same node, caret after the third character. *)
Definition vm_abc : ViewModel :=
  {| _nodeMap := {[ "t"%string := TextNode "t" 0 "abc" ]};
     _selection := Some {| anchorKey := "t"; anchorOffset := 3 |};
     getDirtyNodes := [TextNode "t" 0 "abc"];
     hasDirtyNodes := true;
     isDirty := false |}.

(** The node ["t"] emptied, and a first character typed into it. *)
Definition vm_empty : ViewModel :=
  {| _nodeMap := {[ "t"%string := TextNode "t" 0 "" ]};
     _selection := Some {| anchorKey := "t"; anchorOffset := 0 |};
     getDirtyNodes := [TextNode "t" 0 ""];
     hasDirtyNodes := true;
     isDirty := false |}.

Definition vm_x : ViewModel :=
  {| _nodeMap := {[ "t"%string := TextNode "t" 0 "x" ]};
     _selection := Some {| anchorKey := "t"; anchorOffset := 1 |};
     getDirtyNodes := [TextNode "t" 0 "x"];
     hasDirtyNodes := true;
     isDirty := false |}.

(** A paragraph was split: two nodes are dirty. *)
Definition vm_split : ViewModel :=
  {| _nodeMap := {[ "t"%string := TextNode "t" 0 "ab" ]};
     _selection := Some {| anchorKey := "u"; anchorOffset := 0 |};
     getDirtyNodes := [TextNode "t" 0 "ab"; BlockNode "u" 0];
     hasDirtyNodes := true;
     isDirty := false |}.

Definition objects (r : ViewModelRef) : ViewModel :=
  match r with
  | 1%nat => vm_ab
  | 2%nat => vm_abc
  | 3%nat => vm_empty
  | 4%nat => vm_x
  | 5%nat => vm_split
  | _ => plainVM
  end.

Definition world (exempt : gset ViewModelRef) (h : HistoryState) : World :=
  {| heap := objects;
     viewModelsWithoutHistory := exempt;
     historyState := h;
     editorCalls := [] |}.

End Examples.

(** The world after the common tail of [undo] and [redo]: the history state
    is [h], [viewModel] has been marked dirty in place and handed to
    [editor.setViewModel]. *)
Definition restored (viewModel : ViewModelRef) (h : HistoryState) (w : World)
  : World :=
  {| heap := heap_markDirty viewModel (heap w);
     viewModelsWithoutHistory := viewModelsWithoutHistory w;
     historyState := h;
     editorCalls := editorCalls w ++ [viewModel] |}.

(** ** Runs of the exposed operations *)

(** [applyChange viewModel] reaches the merge decision (the view model is
    not the current one and is not marked dirty) and the decision is [a]. *)
Definition classifiedAs (a : MergeAction) (viewModel : ViewModelRef)
    (w : World) : Prop :=
  Some viewModel ≠ current (historyState w) ∧
  isDirty (heap w viewModel) = false ∧
  mergeDecision (current (historyState w)) viewModel w = Some a.

(** The operations the hook exposes: the update listener, the two triggers
    and the setter. *)
Inductive Op :=
| RecordUpdate (viewModel : ViewModelRef)
| Undo
| Redo
| SetStacks (undoStack' redoStack' : list ViewModelRef).

Definition exec (op : Op) : M unit :=
  match op with
  | RecordUpdate viewModel => applyChange viewModel
  | Undo => undo
  | Redo => redo
  | SetStacks u r => setHistoryState u r
  end.

Fixpoint run (ops : list Op) : M unit :=
  match ops with
  | [] => ret tt
  | op :: ops => exec op ;; run ops
  end.

(** States reached from a fresh history state by operations that satisfy
    [ok] at the state they are applied to. *)
Inductive reachableVia (ok : Op → World → Prop) : World → Prop :=
| reach_init w :
    historyState w = initialHistoryState → reachableVia ok w
| reach_step w op w' :
    reachableVia ok w → ok op w → exec op w = Some (tt, w') →
    reachableVia ok w'.

Definition anyOp (op : Op) (w : World) : Prop := True.

Definition reachable : World → Prop := reachableVia anyOp.

(** [current] is in neither stack. *)
Definition currentNotInStacks (h : HistoryState) : Prop :=
  ∀ c, current h = Some c → (c ∉ undoStack h) ∧ (c ∉ redoStack h).

(** Every view model the history state holds, oldest undo entry first. *)
Definition held (h : HistoryState) : list ViewModelRef :=
  undoStack h ++ option_list (current h) ++ redoStack h.

(** Operations that bring in no view model the history already holds in a
    stack: an update with a view model that is in neither stack, and a
    setter call whose two stacks hold no view model twice and not the
    current one. *)
Definition bringsNoDuplicate (op : Op) (w : World) : Prop :=
  match op with
  | RecordUpdate viewModel =>
    (viewModel ∉ undoStack (historyState w)) ∧
    (viewModel ∉ redoStack (historyState w))
  | Undo | Redo => True
  | SetStacks u r =>
    NoDup (u ++ r) ∧
    ∀ c, current (historyState w) = Some c → c ∉ u ++ r
  end.

(** ** The rest of the hook *)


(** Modelled from the spec: [isUndo] and [isRedo] of [outline/KeyHelpers]
    are not part of the sources at hand; the input layer turns a raw key
    press into the two triggers, so a keyboard event is taken as the pair of
    their answers. *)
Record KeyboardEvent := {
  isUndo : bool;
  isRedo : bool;
}.

(** [handleKeyDown]; [isComposing] is what [editor.isComposing()] answers
    when the event arrives. *)
Definition handleKeyDown (isComposing : bool) (event : KeyboardEvent) : M unit :=
  if isComposing then ret tt else
  if isUndo event then undo
  else if isRedo event then redo
  else ret tt.

Record InputEvent := {
  inputType : string;
}.

(** [handleBeforeInput]; the result tells whether [event.preventDefault()]
    was called. *)
Definition handleBeforeInput (event : InputEvent) : M bool :=
  let inputType := inputType event in
  if decide (inputType = "historyUndo") then
    undo ;; ret true
  else if decide (inputType = "historyRedo") then
    redo ;; ret true
  else ret false.

(** What reaches the hook once its effect has run with a root element: an
    update notification of the editor, a [keydown] or a [beforeinput] event
    on the root element, or a call of the setter. *)
Inductive Event :=
| Update (viewModel : ViewModelRef)
| KeyDown (isComposing : bool) (event : KeyboardEvent)
| BeforeInput (event : InputEvent)
| SetHistoryState (undoStack' redoStack' : list ViewModelRef).

Definition dispatch (e : Event) : M unit :=
  match e with
  | Update viewModel => applyChange viewModel
  | KeyDown isComposing event => handleKeyDown isComposing event
  | BeforeInput event => handleBeforeInput event ;; ret tt
  | SetHistoryState u r => setHistoryState u r
  end.

Fixpoint dispatchAll (es : list Event) : M unit :=
  match es with
  | [] => ret tt
  | e :: es => dispatch e ;; dispatchAll es
  end.

(** The view models an event hands to the hook. *)
Definition supplied (e : Event) : list ViewModelRef :=
  match e with
  | Update viewModel => [viewModel]
  | KeyDown _ _ | BeforeInput _ => []
  | SetHistoryState u r => u ++ r
  end.

(** The history as one sequence, oldest first: what [undo] can go back to,
    the current view model, what [redo] can go forward to. *)
Definition timeline (h : HistoryState) : list ViewModelRef :=
  undoStack h ++ option_list (current h) ++ reverse (redoStack h).

(** ** More concrete view models *)

Module MoreExamples.

(** Text ["abc"] in node ["t"], caret far from where ["ab"] left it. *)
Definition vm_abc_far : ViewModel :=
  {| _nodeMap := {[ "t"%string := TextNode "t" 0 "abc" ]};
     _selection := Some {| anchorKey := "t"; anchorOffset := 5 |};
     getDirtyNodes := [TextNode "t" 0 "abc"];
     hasDirtyNodes := true;
     isDirty := false |}.

(** The second character of ["ab"] replaced. *)
Definition vm_aB : ViewModel :=
  {| _nodeMap := {[ "t"%string := TextNode "t" 0 "aB" ]};
     _selection := None;
     getDirtyNodes := [TextNode "t" 0 "aB"];
     hasDirtyNodes := true;
     isDirty := false |}.

(** ["ab"] with another format flag. *)
Definition vm_ab_bold : ViewModel :=
  {| _nodeMap := {[ "t"%string := TextNode "t" 1 "ab" ]};
     _selection := Some {| anchorKey := "t"; anchorOffset := 2 |};
     getDirtyNodes := [TextNode "t" 1 "ab"];
     hasDirtyNodes := true;
     isDirty := false |}.

(** Three characters pasted after ["ab"]. *)
Definition vm_pasted : ViewModel :=
  {| _nodeMap := {[ "t"%string := TextNode "t" 0 "abxyz" ]};
     _selection := Some {| anchorKey := "t"; anchorOffset := 5 |};
     getDirtyNodes := [TextNode "t" 0 "abxyz"];
     hasDirtyNodes := true;
     isDirty := false |}.

(** ["abc"] in the middle of a composition. *)
Definition vm_composing : ViewModel :=
  {| _nodeMap := {[ "t"%string := TextNode "t" 0 "abc" ]};
     _selection := Some {| anchorKey := "t"; anchorOffset := 3 |};
     getDirtyNodes := [TextNode "t" 0 "abc"];
     hasDirtyNodes := true;
     isDirty := true |}.

Definition objects (r : ViewModelRef) : ViewModel :=
  match r with
  | 6%nat => vm_abc_far
  | 7%nat => vm_aB
  | 8%nat => vm_ab_bold
  | 9%nat => vm_pasted
  | 10%nat => vm_composing
  | _ => Examples.objects r
  end.

Definition world (exempt : gset ViewModelRef) (h : HistoryState) : World :=
  {| heap := objects;
     viewModelsWithoutHistory := exempt;
     historyState := h;
     editorCalls := [] |}.

End MoreExamples.

(** Unfolds the monadic plumbing and reduces the projections it exposes;
    the tests of the source stay in place for the caller to decide. *)
Ltac mstep :=
  repeat (progress (
    unfold undoStack_pop, redoStack_pop, undoStack_push, redoStack_push,
      set_current, set_redoStack, set_undoStack, get_current, deref,
      ViewModel_markDirty, editor_setViewModel,
      with_history, bind, gets, modify, ret, throw, Array_push;
    cbn [historyState undoStack redoStack current heap
         viewModelsWithoutHistory editorCalls negb andb])).

(** Inclusion of one list of held view models in another. *)
Ltac list_subset :=
  let x := fresh "x" in
  intros x; unfold held, historyOf;
  cbn [undoStack redoStack current historyState with_history restored
       option_list option_rect supplied];
  repeat first [rewrite elem_of_app | rewrite elem_of_cons | rewrite elem_of_nil];
  tauto.

(** ** Properties of the merge decision *)

Section MergeDecision.

Variable w : World.
Variable next : ViewModelRef.

Lemma getMergeAction_exempt (prev : option ViewModelRef) :
  next ∈ viewModelsWithoutHistory w →
  getMergeAction prev next w =
    Some (MERGE,
          {| heap := heap w;
             viewModelsWithoutHistory := viewModelsWithoutHistory w ∖ {[ next ]};
             historyState := historyState w;
             editorCalls := editorCalls w |}).
Proof.
  intros Hin. unfold getMergeAction, bind, WeakSet_has, gets.
  rewrite bool_decide_eq_true_2 by exact Hin. reflexivity.
Qed.

Lemma getMergeAction_not_exempt (prev : option ViewModelRef) :
  next ∉ viewModelsWithoutHistory w →
  getMergeAction prev next w = Some (contentDecision prev next w, w).
Proof.
  intros Hnin. unfold getMergeAction, contentDecision, bind, WeakSet_has, gets.
  rewrite bool_decide_eq_false_2 by exact Hnin.
  destruct prev as [prev|]; [|reflexivity].
  unfold deref, gets. destruct (negb _); reflexivity.
Qed.

Lemma getMergeAction_total (prev : option ViewModelRef) :
  is_Some (getMergeAction prev next w).
Proof.
  destruct (decide (next ∈ viewModelsWithoutHistory w)) as [Hin|Hnin].
  - rewrite getMergeAction_exempt by exact Hin. eauto.
  - rewrite getMergeAction_not_exempt by exact Hnin. eauto.
Qed.

End MergeDecision.

(** *** Forced merge and missing previous snapshot *)

(** C5, as stated, fails: with no previous view model and a next view model
    that is not marked dirty but is in [viewModelsWithoutHistory], the
    decision is [MERGE], not [NO_MERGE]. *)
Lemma getMergeAction_null_prev_exempt_merges :
  isDirty (heap (Examples.world {[ 0%nat ]} initialHistoryState) 0%nat) = false ∧
  mergeDecision None 0%nat (Examples.world {[ 0%nat ]} initialHistoryState)
    = Some MERGE ∧
  mergeDecision None 0%nat (Examples.world {[ 0%nat ]} initialHistoryState)
    ≠ Some NO_MERGE.
Proof. split; [reflexivity|]. split; [vm_compute; reflexivity|]. vm_compute. discriminate. Qed.

(** C5, amended: when the next view model is not marked dirty, is not in
    [viewModelsWithoutHistory], and there is no previous view model, the
    decision is [NO_MERGE]; the world is left as it was. *)
Theorem getMergeAction_null_prev (w : World) (next : ViewModelRef) :
  isDirty (heap w next) = false →
  next ∉ viewModelsWithoutHistory w →
  getMergeAction None next w = Some (NO_MERGE, w).
Proof.
  intros _ Hnin. rewrite getMergeAction_not_exempt by exact Hnin. reflexivity.
Qed.

Lemma getMergeAction_null_prev_witness :
  getMergeAction None 0%nat (Examples.world ∅ initialHistoryState)
    = Some (NO_MERGE, Examples.world ∅ initialHistoryState).
Proof.
  apply (getMergeAction_null_prev (Examples.world ∅ initialHistoryState) 0%nat).
  - reflexivity.
  - vm_compute. intros H. inversion H.
Defined.

(** *** The text heuristic *)

Section TextHeuristic.

Variable w : World.
Variables prev next : ViewModelRef.
Hypothesis not_exempt : next ∉ viewModelsWithoutHistory w.

(** C1: the next view model has dirty nodes, exactly one, a text node;
    the previous view model has a text node under the same key, with the
    same flags and a non-empty text; the text grew or shrank by one
    character; both view models have a selection, anchored in the same node,
    the next one one position further: the decision is [MERGE]. *)
Theorem getMergeAction_contiguous_keystroke
    (key prevKey : NodeKey) (flags : Z) (prevText nextText : string)
    (selection prevSelection : Selection) :
  hasDirtyNodes (heap w next) = true →
  getDirtyNodes (heap w next) = [TextNode key flags nextText] →
  _nodeMap (heap w prev) !! key = Some (TextNode prevKey flags prevText) →
  prevText ≠ "" →
  (String.length nextText = String.length prevText + 1
   ∨ String.length nextText + 1 = String.length prevText)%nat →
  _selection (heap w next) = Some selection →
  _selection (heap w prev) = Some prevSelection →
  anchorKey selection = anchorKey prevSelection →
  anchorOffset selection = anchorOffset prevSelection + 1 →
  getMergeAction (Some prev) next w = Some (MERGE, w).
Proof.
  intros Hhas Hdirty Hprev Hne Hlen Hsel Hpsel Hkey Hoff.
  rewrite getMergeAction_not_exempt by exact not_exempt.
  unfold contentDecision. rewrite Hhas, Hdirty.
  cbn [negb default]. unfold singleDirtyNode. cbn [__key].
  rewrite Hprev, Hsel, Hpsel.
  rewrite decide_True by reflexivity.
  rewrite decide_False by exact Hne.
  rewrite decide_False by lia.
  rewrite decide_True by lia.
  rewrite decide_False by (intros H; apply H; exact Hkey).
  rewrite decide_True by lia.
  reflexivity.
Qed.

(** C6: the next view model has dirty nodes, exactly one, and the previous
    view model has under its key a text node with the same flags and the
    empty text: the decision is [NO_MERGE], whatever the selections and the
    new text are. *)
Theorem getMergeAction_empty_prev_text
    (nextDirtyNode : OutlineNode) (prevKey : NodeKey) :
  hasDirtyNodes (heap w next) = true →
  getDirtyNodes (heap w next) = [nextDirtyNode] →
  _nodeMap (heap w prev) !! __key nextDirtyNode
    = Some (TextNode prevKey (__flags nextDirtyNode) "") →
  getMergeAction (Some prev) next w = Some (NO_MERGE, w).
Proof.
  intros Hhas Hdirty Hprev.
  rewrite getMergeAction_not_exempt by exact not_exempt.
  unfold contentDecision. rewrite Hhas, Hdirty.
  cbn [negb default]. unfold singleDirtyNode. rewrite Hprev.
  destruct nextDirtyNode as [k f t|k f]; cbn [__flags]; [|reflexivity].
  rewrite decide_True by reflexivity.
  rewrite decide_True by reflexivity.
  reflexivity.
Qed.

End TextHeuristic.

(** Text ["ab"] then ["abc"] in the same node, anchor offset 2 then 3. *)
Lemma getMergeAction_contiguous_keystroke_witness :
  getMergeAction (Some 1%nat) 2%nat (Examples.world ∅ initialHistoryState)
    = Some (MERGE, Examples.world ∅ initialHistoryState).
Proof.
  apply (getMergeAction_contiguous_keystroke
           (Examples.world ∅ initialHistoryState) 1%nat 2%nat
           ltac:(vm_compute; intros H; inversion H)
           "t"%string "t"%string 0 "ab"%string "abc"%string
           {| anchorKey := "t"; anchorOffset := 3 |}
           {| anchorKey := "t"; anchorOffset := 2 |}).
  - reflexivity.
  - reflexivity.
  - vm_compute. reflexivity.
  - discriminate.
  - left. reflexivity.
  - reflexivity.
  - reflexivity.
  - reflexivity.
  - reflexivity.
Defined.

(** The node was emptied, then a character is typed into it. *)
Lemma getMergeAction_empty_prev_text_witness :
  getMergeAction (Some 3%nat) 4%nat (Examples.world ∅ initialHistoryState)
    = Some (NO_MERGE, Examples.world ∅ initialHistoryState).
Proof.
  apply (getMergeAction_empty_prev_text
           (Examples.world ∅ initialHistoryState) 3%nat 4%nat
           ltac:(vm_compute; intros H; inversion H)
           (TextNode "t" 0 "x") "t"%string).
  - reflexivity.
  - reflexivity.
  - vm_compute. reflexivity.
Defined.

(** ** The operations, case by case *)

Lemma Array_pop_push {A} (l : list A) (x : A) :
  Array_pop (l ++ [x]) = Some (x, l).
Proof.
  unfold Array_pop. rewrite last_snoc, removelast_last. reflexivity.
Qed.

Lemma length_snoc_ne_0 {A} (l : list A) (x : A) : length (l ++ [x]) ≠ 0%nat.
Proof. rewrite length_app. simpl. lia. Qed.

Lemma length_snoc2_ne_1 {A} (l : list A) (x y : A) :
  length ((l ++ [x]) ++ [y]) ≠ 1%nat.
Proof. rewrite !length_app. simpl. lia. Qed.

Section Undo.

Variables (h : ViewModelRef → ViewModel) (ex : gset ViewModelRef).
Variables (r calls : list ViewModelRef).

Let W (c : option ViewModelRef) (u : list ViewModelRef) : World :=
  {| heap := h; viewModelsWithoutHistory := ex;
     historyState := historyOf c u r; editorCalls := calls |}.

Lemma undo_empty_stack c : undo (W c []) = Some (tt, W c []).
Proof. reflexivity. Qed.

Lemma undo_no_current u a :
  undo (W None (u ++ [a])) =
    Some (tt, restored a (historyOf (Some a) u r) (W None (u ++ [a]))).
Proof.
  unfold W, historyOf, undo. mstep.
  rewrite decide_True by apply length_snoc_ne_0. mstep.
  rewrite (Array_pop_push u a). reflexivity.
Qed.

Lemma undo_skip c u a b :
  hasDirtyNodes (h c) = false →
  undo (W (Some c) ((u ++ [a]) ++ [b])) =
    Some (tt, restored a (historyOf (Some a) u (r ++ [b]))
                (W (Some c) ((u ++ [a]) ++ [b]))).
Proof.
  intros Hclean. unfold W, historyOf, undo. mstep.
  rewrite decide_True by apply length_snoc_ne_0. mstep.
  rewrite bool_decide_eq_true_2 by apply length_snoc2_ne_1.
  rewrite Hclean. mstep.
  rewrite (Array_pop_push (u ++ [a]) b). mstep.
  rewrite (Array_pop_push u a). reflexivity.
Qed.

Lemma undo_push_current c u a :
  u = [] ∨ hasDirtyNodes (h c) = true →
  undo (W (Some c) (u ++ [a])) =
    Some (tt, restored a (historyOf (Some a) u (r ++ [c]))
                (W (Some c) (u ++ [a]))).
Proof.
  intros Hcase. unfold W, historyOf, undo. mstep.
  rewrite decide_True by apply length_snoc_ne_0. mstep.
  assert (bool_decide (length (u ++ [a]) ≠ 1%nat) && negb (hasDirtyNodes (h c))
          = false) as ->.
  { destruct Hcase as [-> | ->].
    - reflexivity.
    - apply andb_false_r. }
  mstep. rewrite (Array_pop_push u a). reflexivity.
Qed.

End Undo.

Section Redo.

Variables (h : ViewModelRef → ViewModel) (ex : gset ViewModelRef).
Variables (u calls : list ViewModelRef).

Let W (c : option ViewModelRef) (r : list ViewModelRef) : World :=
  {| heap := h; viewModelsWithoutHistory := ex;
     historyState := historyOf c u r; editorCalls := calls |}.

Lemma redo_empty_stack c : redo (W c []) = Some (tt, W c []).
Proof. reflexivity. Qed.

Lemma redo_nonempty c r b :
  redo (W c (r ++ [b])) =
    Some (tt, restored b (historyOf (Some b) (u ++ option_list c) r)
                (W c (r ++ [b]))).
Proof.
  unfold W, historyOf, redo. mstep.
  rewrite decide_True by apply length_snoc_ne_0. mstep.
  destruct c as [c|]; mstep; rewrite (Array_pop_push r b).
  - reflexivity.
  - cbn [option_list]. rewrite app_nil_r. reflexivity.
Qed.

End Redo.

Section ApplyChange.

Variable w : World.
Variable viewModel : ViewModelRef.

Lemma applyChange_current :
  current (historyState w) = Some viewModel →
  applyChange viewModel w = Some (tt, w).
Proof.
  intros Hc. unfold applyChange. mstep. rewrite Hc.
  rewrite decide_True by reflexivity. reflexivity.
Qed.

Lemma applyChange_dirty :
  Some viewModel ≠ current (historyState w) →
  isDirty (heap w viewModel) = true →
  applyChange viewModel w =
    Some (tt, with_history
                (λ hs, historyOf (Some viewModel) (undoStack hs) (redoStack hs)) w).
Proof.
  intros Hne Hd. unfold applyChange. mstep.
  rewrite decide_False by exact Hne. mstep. rewrite Hd. reflexivity.
Qed.

(** The three outcomes once the merge decision [a] has been taken, leaving
    the world [w1]. *)
Lemma applyChange_decided (a : MergeAction) (w1 : World) :
  Some viewModel ≠ current (historyState w) →
  isDirty (heap w viewModel) = false →
  getMergeAction (current (historyState w)) viewModel w = Some (a, w1) →
  applyChange viewModel w =
    Some (tt,
          match a with
          | MERGE =>
            with_history
              (λ hs, historyOf (Some viewModel) (undoStack hs) (redoStack hs)) w1
          | NO_MERGE =>
            with_history
              (λ hs, historyOf (Some viewModel)
                       (undoStack hs ++ option_list (current (historyState w)))
                       []) w1
          | DISCARD => w1
          end).
Proof.
  intros Hne Hd Hdec. unfold applyChange. mstep.
  rewrite decide_False by exact Hne. mstep. rewrite Hd. mstep.
  rewrite Hdec. destruct a; mstep; try reflexivity.
  destruct (redoStack (historyState w1)) as [|x l] eqn:Hr.
  - rewrite decide_False by (simpl; lia). mstep.
    destruct (current (historyState w)) as [c|]; mstep; rewrite ?Hr.
    + reflexivity.
    + cbn [option_list]. rewrite app_nil_r. reflexivity.
  - rewrite decide_True by (simpl; lia). mstep.
    destruct (current (historyState w)) as [c|]; mstep.
    + reflexivity.
    + cbn [option_list]. rewrite app_nil_r. reflexivity.
Qed.

Lemma applyChange_total : is_Some (applyChange viewModel w).
Proof.
  destruct (decide (Some viewModel = current (historyState w))) as [Heq|Hne].
  - rewrite applyChange_current by (symmetry; exact Heq). eauto.
  - destruct (isDirty (heap w viewModel)) eqn:Hd.
    + rewrite applyChange_dirty by assumption. eauto.
    + destruct (getMergeAction_total w viewModel (current (historyState w)))
        as [[a w1] Hdec].
      rewrite (applyChange_decided a w1) by assumption. eauto.
Qed.

End ApplyChange.

Lemma undo_total (w : World) : is_Some (undo w).
Proof.
  destruct w as [h ex [c r u] calls].
  change (Build_HistoryState c r u) with (historyOf c u r).
  destruct u as [|a u _] using rev_ind.
  - rewrite undo_empty_stack. eauto.
  - destruct c as [c|].
    + destruct (hasDirtyNodes (h c)) eqn:Hd.
      * rewrite undo_push_current by (right; exact Hd). eauto.
      * destruct u as [|b u _] using rev_ind.
        -- rewrite (undo_push_current h ex r calls c [] a) by (left; reflexivity).
           eauto.
        -- rewrite undo_skip by exact Hd. eauto.
    + rewrite undo_no_current. eauto.
Qed.

Lemma redo_total (w : World) : is_Some (redo w).
Proof.
  destruct w as [h ex [c r u] calls].
  change (Build_HistoryState c r u) with (historyOf c u r).
  destruct r as [|b r _] using rev_ind.
  - rewrite redo_empty_stack. eauto.
  - rewrite redo_nonempty. eauto.
Qed.

(** ** Recording updates *)

Lemma classifiedAs_NO_MERGE_not_exempt (w : World) (viewModel : ViewModelRef) :
  classifiedAs NO_MERGE viewModel w →
  viewModel ∉ viewModelsWithoutHistory w.
Proof.
  intros (_ & _ & Hdec) Hin. unfold mergeDecision in Hdec.
  rewrite getMergeAction_exempt in Hdec by exact Hin. discriminate.
Qed.

(** C3, as stated, fails: a first update whose view model is not marked
    dirty and has no dirty nodes is decided [NO_MERGE], not [DISCARD], and
    [applyChange] makes it the current view model. *)
Lemma applyChange_clean_first_update_is_recorded :
  isDirty (heap (Examples.world ∅ initialHistoryState) 0%nat) = false ∧
  hasDirtyNodes (heap (Examples.world ∅ initialHistoryState) 0%nat) = false ∧
  mergeDecision None 0%nat (Examples.world ∅ initialHistoryState)
    = Some NO_MERGE ∧
  applyChange 0%nat (Examples.world ∅ initialHistoryState)
    = Some (tt, Examples.world ∅ (historyOf (Some 0%nat) [] [])) ∧
  historyOf (Some 0%nat) [] [] ≠ initialHistoryState.
Proof.
  split; [reflexivity|]. split; [reflexivity|].
  split; [vm_compute; reflexivity|]. split; [vm_compute; reflexivity|].
  discriminate.
Qed.

(** C3, amended: when there is a previous view model and the next one is
    not in [viewModelsWithoutHistory], is not marked dirty and has no dirty
    nodes, the decision is [DISCARD], and [applyChange] from a state whose
    current view model is that previous one leaves the whole world, hence
    [current] and both stacks, as it was. *)
Theorem applyChange_discard (w : World) (prev next : ViewModelRef) :
  next ∉ viewModelsWithoutHistory w →
  isDirty (heap w next) = false →
  hasDirtyNodes (heap w next) = false →
  getMergeAction (Some prev) next w = Some (DISCARD, w) ∧
  (current (historyState w) = Some prev → applyChange next w = Some (tt, w)).
Proof.
  intros Hnin Hd Hclean.
  assert (getMergeAction (Some prev) next w = Some (DISCARD, w)) as Hdec.
  { rewrite getMergeAction_not_exempt by exact Hnin.
    unfold contentDecision. rewrite Hclean. reflexivity. }
  split; [exact Hdec|]. intros Hc.
  destruct (decide (next = prev)) as [->|Hne].
  - apply applyChange_current. exact Hc.
  - rewrite (applyChange_decided w next DISCARD w).
    + reflexivity.
    + congruence.
    + exact Hd.
    + rewrite Hc. exact Hdec.
Qed.

Lemma applyChange_discard_witness :
  getMergeAction (Some 1%nat) 0%nat
      (Examples.world ∅ (historyOf (Some 1%nat) [] []))
    = Some (DISCARD, Examples.world ∅ (historyOf (Some 1%nat) [] [])) ∧
  applyChange 0%nat (Examples.world ∅ (historyOf (Some 1%nat) [] []))
    = Some (tt, Examples.world ∅ (historyOf (Some 1%nat) [] [])).
Proof.
  destruct (applyChange_discard
              (Examples.world ∅ (historyOf (Some 1%nat) [] [])) 1%nat 0%nat)
    as [Hdec Happ].
  - vm_compute. intros H. inversion H.
  - reflexivity.
  - reflexivity.
  - split; [exact Hdec|]. apply Happ. reflexivity.
Defined.

Lemma applyChange_NO_MERGE_result (w : World) (viewModel : ViewModelRef) :
  classifiedAs NO_MERGE viewModel w →
  applyChange viewModel w =
    Some (tt, with_history
                (λ hs, historyOf (Some viewModel)
                         (undoStack hs ++ option_list (current hs)) []) w).
Proof.
  intros Hcl. pose proof (classifiedAs_NO_MERGE_not_exempt _ _ Hcl) as Hnin.
  destruct Hcl as (Hne & Hd & Hdec). unfold mergeDecision in Hdec.
  rewrite getMergeAction_not_exempt in Hdec by exact Hnin.
  cbn in Hdec. injection Hdec as Hdec.
  rewrite (applyChange_decided w viewModel NO_MERGE w).
  - reflexivity.
  - exact Hne.
  - exact Hd.
  - rewrite getMergeAction_not_exempt by exact Hnin. rewrite Hdec. reflexivity.
Qed.

(** C4: an update that is decided [NO_MERGE] empties the redo stack, pushes
    the previous current view model (when there is one) on the undo stack
    and becomes the current view model; in particular the redo stack is
    empty afterwards. *)
Theorem applyChange_no_merge (w : World) (viewModel : ViewModelRef) :
  classifiedAs NO_MERGE viewModel w →
  ∃ w',
    applyChange viewModel w = Some (tt, w') ∧
    redoStack (historyState w') = [] ∧
    undoStack (historyState w')
      = undoStack (historyState w) ++ option_list (current (historyState w)) ∧
    current (historyState w') = Some viewModel ∧
    heap w' = heap w ∧
    viewModelsWithoutHistory w' = viewModelsWithoutHistory w ∧
    editorCalls w' = editorCalls w.
Proof.
  intros Hcl. eexists. split.
  - exact (applyChange_NO_MERGE_result w viewModel Hcl).
  - repeat split.
Qed.

(** A paragraph split recorded after an undo: the redo stack is dropped. *)
Lemma applyChange_no_merge_witness :
  ∃ w',
    applyChange 5%nat
        (Examples.world ∅ (historyOf (Some 1%nat) [3%nat] [2%nat]))
      = Some (tt, w') ∧
    redoStack (historyState w') = [] ∧
    undoStack (historyState w') = [3%nat; 1%nat] ∧
    current (historyState w') = Some 5%nat.
Proof.
  destruct (applyChange_no_merge
              (Examples.world ∅ (historyOf (Some 1%nat) [3%nat] [2%nat])) 5%nat)
    as (w' & Happ & Hr & Hu & Hc & _).
  - split; [discriminate|]. split; [reflexivity|]. vm_compute. reflexivity.
  - exists w'. split; [exact Happ|]. split; [exact Hr|].
    split; [exact Hu|exact Hc].
Defined.

(** ** Undo and redo *)

Lemma restored_isDirty (viewModel : ViewModelRef) (hs : HistoryState) (w : World) :
  isDirty (heap (restored viewModel hs w) viewModel) = true.
Proof.
  unfold restored, heap_markDirty. cbn [heap].
  rewrite decide_True by reflexivity. reflexivity.
Qed.

(** C7: [undo] on an empty undo stack and [redo] on an empty redo stack
    leave the world, hence [current] and both stacks, as it was; and every
    exposed operation returns normally from every state. *)
Theorem undo_redo_empty_noop (w : World) :
  (undoStack (historyState w) = [] → undo w = Some (tt, w)) ∧
  (redoStack (historyState w) = [] → redo w = Some (tt, w)) ∧
  (∀ op, is_Some (exec op w)).
Proof.
  split; [|split].
  - intros Hu. destruct w as [h ex [c r u] calls]. cbn in Hu. subst u.
    apply (undo_empty_stack h ex r calls c).
  - intros Hr. destruct w as [h ex [c r u] calls]. cbn in Hr. subst r.
    apply (redo_empty_stack h ex u calls c).
  - intros [viewModel| | |u r]; cbn [exec].
    + apply applyChange_total.
    + apply undo_total.
    + apply redo_total.
    + unfold setHistoryState. mstep. eauto.
Qed.

Lemma undo_redo_empty_noop_witness :
  undo (Examples.world ∅ (historyOf (Some 1%nat) [] []))
    = Some (tt, Examples.world ∅ (historyOf (Some 1%nat) [] [])) ∧
  redo (Examples.world ∅ (historyOf (Some 1%nat) [] []))
    = Some (tt, Examples.world ∅ (historyOf (Some 1%nat) [] [])).
Proof.
  destruct (undo_redo_empty_noop
              (Examples.world ∅ (historyOf (Some 1%nat) [] [])))
    as (Hundo & Hredo & _).
  split; [apply Hundo; reflexivity | apply Hredo; reflexivity].
Defined.

Lemma undo_skip_at (w : World) (c : ViewModelRef) u a b :
  current (historyState w) = Some c →
  undoStack (historyState w) = u ++ [a; b] →
  hasDirtyNodes (heap w c) = false →
  undo w = Some (tt, restored a
                       (historyOf (Some a) u (redoStack (historyState w) ++ [b]))
                       w).
Proof.
  intros Hc Hu Hclean. destruct w as [h ex [c' r u'] calls].
  cbn in Hc, Hu. subst c' u'. cbn [historyState redoStack].
  change (u ++ [a; b]) with (u ++ [a] ++ [b]). rewrite app_assoc.
  apply (undo_skip h ex r calls c u a b Hclean).
Qed.

Lemma undo_push_current_at (w : World) (c : ViewModelRef) u a :
  current (historyState w) = Some c →
  undoStack (historyState w) = u ++ [a] →
  u = [] ∨ hasDirtyNodes (heap w c) = true →
  undo w = Some (tt, restored a
                       (historyOf (Some a) u (redoStack (historyState w) ++ [c]))
                       w).
Proof.
  intros Hc Hu Hcase. destruct w as [h ex [c' r u'] calls].
  cbn in Hc, Hu. subst c' u'.
  apply (undo_push_current h ex r calls c u a Hcase).
Qed.

(** C8: with a current view model [c] and a non-empty undo stack, [undo]
    pushes on the redo stack either the top entry it pops off the undo stack
    (more than one entry and [c] without dirty nodes) or [c] itself
    (otherwise); it then pops the top of the undo stack, makes it current,
    marks it dirty and hands it to the editor. *)
Theorem undo_with_current (w : World) (c : ViewModelRef) :
  current (historyState w) = Some c →
  (∀ u a b,
     undoStack (historyState w) = u ++ [a; b] →
     hasDirtyNodes (heap w c) = false →
     undo w = Some (tt, restored a
                          (historyOf (Some a) u (redoStack (historyState w) ++ [b]))
                          w)) ∧
  (∀ u a,
     undoStack (historyState w) = u ++ [a] →
     u = [] ∨ hasDirtyNodes (heap w c) = true →
     undo w = Some (tt, restored a
                          (historyOf (Some a) u (redoStack (historyState w) ++ [c]))
                          w)).
Proof.
  intros Hc. split.
  - intros u a b Hu Hclean. exact (undo_skip_at w c u a b Hc Hu Hclean).
  - intros u a Hu Hcase. exact (undo_push_current_at w c u a Hc Hu Hcase).
Qed.

Lemma undo_with_current_witness :
  undo (Examples.world ∅ (historyOf (Some 0%nat) [1%nat; 2%nat] [4%nat]))
    = Some (tt, restored 1%nat (historyOf (Some 1%nat) [] [4%nat; 2%nat])
                  (Examples.world ∅ (historyOf (Some 0%nat) [1%nat; 2%nat] [4%nat]))) ∧
  undo (Examples.world ∅ (historyOf (Some 5%nat) [1%nat; 2%nat] [4%nat]))
    = Some (tt, restored 2%nat (historyOf (Some 2%nat) [1%nat] [4%nat; 5%nat])
                  (Examples.world ∅ (historyOf (Some 5%nat) [1%nat; 2%nat] [4%nat]))).
Proof.
  split.
  - apply (proj1 (undo_with_current
                    (Examples.world ∅ (historyOf (Some 0%nat) [1%nat; 2%nat] [4%nat]))
                    0%nat eq_refl) [] 1%nat 2%nat); reflexivity.
  - apply (proj2 (undo_with_current
                    (Examples.world ∅ (historyOf (Some 5%nat) [1%nat; 2%nat] [4%nat]))
                    5%nat eq_refl) [1%nat] 2%nat); [reflexivity|].
    right. reflexivity.
Defined.

(** C10: with no current view model and a non-empty undo stack, [undo] pops
    one entry, makes it current, marks it dirty and hands it to the editor;
    the redo stack is left as it was. *)
Theorem undo_without_current (w : World) (u : list ViewModelRef) (a : ViewModelRef) :
  current (historyState w) = None →
  undoStack (historyState w) = u ++ [a] →
  undo w = Some (tt, restored a
                       (historyOf (Some a) u (redoStack (historyState w))) w).
Proof.
  intros Hc Hu. destruct w as [h ex [c r u'] calls]. cbn in Hc, Hu. subst c u'.
  apply (undo_no_current h ex r calls u a).
Qed.

Lemma undo_without_current_witness :
  undo (Examples.world ∅ (historyOf None [1%nat; 2%nat] [4%nat]))
    = Some (tt, restored 2%nat (historyOf (Some 2%nat) [1%nat] [4%nat])
                  (Examples.world ∅ (historyOf None [1%nat; 2%nat] [4%nat]))).
Proof.
  apply (undo_without_current
           (Examples.world ∅ (historyOf None [1%nat; 2%nat] [4%nat]))
           [1%nat] 2%nat); reflexivity.
Defined.

(** The redo counterpart of the two theorems above. *)
Lemma redo_nonempty_stack (w : World) (r : list ViewModelRef) (b : ViewModelRef) :
  redoStack (historyState w) = r ++ [b] →
  redo w = Some (tt, restored b
                       (historyOf (Some b)
                          (undoStack (historyState w)
                             ++ option_list (current (historyState w))) r) w).
Proof.
  intros Hr. destruct w as [h ex [c r' u] calls]. cbn in Hr. subst r'.
  apply (redo_nonempty h ex u calls c r b).
Qed.

(** ** A round trip *)

(** C2: from the fresh history state, two updates [A] then [B] that are both
    decided [NO_MERGE] leave [A] alone on the undo stack and [B] current;
    [undo] then makes [A] current with [B] alone on the redo stack and an
    empty undo stack; [redo] then brings back [B] as current, [A] alone on
    the undo stack and an empty redo stack. *)
Theorem record_record_undo_redo (w0 : World) (A B : ViewModelRef) :
  historyState w0 = initialHistoryState →
  classifiedAs NO_MERGE A w0 →
  (∀ w1, applyChange A w0 = Some (tt, w1) → classifiedAs NO_MERGE B w1) →
  ∃ w1 w2 w3 w4,
    applyChange A w0 = Some (tt, w1) ∧
    applyChange B w1 = Some (tt, w2) ∧
    historyState w2 = historyOf (Some B) [A] [] ∧
    undo w2 = Some (tt, w3) ∧
    historyState w3 = historyOf (Some A) [] [B] ∧
    redo w3 = Some (tt, w4) ∧
    historyState w4 = historyOf (Some B) [A] [].
Proof.
  intros Hinit HA HB.
  set (w1 := with_history (λ _, historyOf (Some A) [] []) w0).
  set (w2 := with_history (λ _, historyOf (Some B) [A] []) w0).
  set (w3 := restored A (historyOf (Some A) [] [B]) w2).
  set (w4 := restored B (historyOf (Some B) [A] []) w3).
  assert (applyChange A w0 = Some (tt, w1)) as H1.
  { rewrite (applyChange_NO_MERGE_result w0 A HA).
    unfold w1, with_history. rewrite Hinit. reflexivity. }
  assert (applyChange B w1 = Some (tt, w2)) as H2.
  { rewrite (applyChange_NO_MERGE_result w1 B (HB w1 H1)). reflexivity. }
  assert (undo w2 = Some (tt, w3)) as H3.
  { apply (undo_push_current_at w2 B [] A eq_refl eq_refl).
    left. reflexivity. }
  assert (redo w3 = Some (tt, w4)) as H4.
  { apply (redo_nonempty_stack w3 [] B eq_refl). }
  exists w1, w2, w3, w4.
  split; [exact H1|]. split; [exact H2|]. split; [reflexivity|].
  split; [exact H3|]. split; [reflexivity|].
  split; [exact H4|]. reflexivity.
Qed.

Lemma record_record_undo_redo_witness :
  ∃ w1 w2 w3 w4,
    applyChange 1%nat (Examples.world ∅ initialHistoryState) = Some (tt, w1) ∧
    applyChange 5%nat w1 = Some (tt, w2) ∧
    historyState w2 = historyOf (Some 5%nat) [1%nat] [] ∧
    undo w2 = Some (tt, w3) ∧
    historyState w3 = historyOf (Some 1%nat) [] [5%nat] ∧
    redo w3 = Some (tt, w4) ∧
    historyState w4 = historyOf (Some 5%nat) [1%nat] [].
Proof.
  apply (record_record_undo_redo (Examples.world ∅ initialHistoryState)
           1%nat 5%nat).
  - reflexivity.
  - split; [discriminate|]. split; [reflexivity|]. vm_compute. reflexivity.
  - intros w1 H1. vm_compute in H1. injection H1 as <-.
    split; [discriminate|]. split; [reflexivity|]. vm_compute. reflexivity.
Defined.

(** ** View models held twice *)

Lemma NoDup_submseteq_mono {A} (l k : list A) : l ⊆+ k → NoDup k → NoDup l.
Proof.
  intros Hsub Hk. apply submseteq_Permutation in Hsub as [k' Hk'].
  rewrite Hk' in Hk. apply NoDup_app in Hk. tauto.
Qed.

(** The lists held after an operation are, up to order, part of the lists
    held before it (plus, for an update, the new view model). *)
Ltac nodup_from H :=
  unfold held, historyOf in *;
  cbn [undoStack redoStack current historyState with_history restored
       option_list option_rect] in *;
  eapply NoDup_submseteq_mono; [|exact H]; solve_submseteq.

Lemma NoDup_held_currentNotInStacks (hs : HistoryState) :
  NoDup (held hs) → currentNotInStacks hs.
Proof.
  destruct hs as [c r u]. intros Hnd c' Hc. cbn in Hc. subst c.
  unfold held in Hnd. cbn [undoStack redoStack current option_list option_rect] in *.
  apply NoDup_app in Hnd as (_ & Hu & Hr).
  apply NoDup_cons in Hr as [Hr _]. split; [|exact Hr].
  intros Hin. apply (Hu c' Hin). left.
Qed.

Lemma NoDup_held_fresh (hs : HistoryState) (viewModel : ViewModelRef) :
  Some viewModel ≠ current hs →
  viewModel ∉ undoStack hs → viewModel ∉ redoStack hs →
  NoDup (held hs) → NoDup (viewModel :: held hs).
Proof.
  intros Hc Hu Hr Hnd. apply NoDup_cons. split; [|exact Hnd].
  unfold held. rewrite !elem_of_app. intros [Hin|[Hin|Hin]].
  - exact (Hu Hin).
  - destruct (current hs) as [c|]; cbn in Hin.
    + apply list_elem_of_singleton in Hin. congruence.
    + inversion Hin.
  - exact (Hr Hin).
Qed.

Lemma getMergeAction_historyState (prev : option ViewModelRef)
    (next : ViewModelRef) (w w1 : World) (a : MergeAction) :
  getMergeAction prev next w = Some (a, w1) →
  historyState w1 = historyState w.
Proof.
  destruct (decide (next ∈ viewModelsWithoutHistory w)) as [Hin|Hnin].
  - rewrite getMergeAction_exempt by exact Hin. intros [= _ <-]. reflexivity.
  - rewrite getMergeAction_not_exempt by exact Hnin. intros [= _ <-]. reflexivity.
Qed.

Lemma applyChange_NoDup (w w' : World) (viewModel : ViewModelRef) :
  bringsNoDuplicate (RecordUpdate viewModel) w →
  applyChange viewModel w = Some (tt, w') →
  NoDup (held (historyState w)) → NoDup (held (historyState w')).
Proof.
  intros [Hu Hr].
  destruct (decide (Some viewModel = current (historyState w))) as [Heq|Hne].
  { rewrite applyChange_current by (symmetry; exact Heq).
    intros [= <-]. trivial. }
  intros Hexec Hnd.
  pose proof (NoDup_held_fresh _ viewModel Hne Hu Hr Hnd) as Hfresh.
  revert Hexec. destruct (isDirty (heap w viewModel)) eqn:Hd.
  { rewrite applyChange_dirty by assumption. intros [= <-].
    unfold with_history. destruct (historyState w) as [[c|] r u];
      nodup_from Hfresh. }
  destruct (getMergeAction_total w viewModel (current (historyState w)))
    as [[a w1] Hdec].
  rewrite (applyChange_decided w viewModel a w1) by assumption.
  apply getMergeAction_historyState in Hdec. intros [= <-].
  destruct a; unfold with_history; rewrite ?Hdec.
  - destruct (historyState w) as [[c|] r u]; nodup_from Hfresh.
  - destruct (historyState w) as [[c|] r u]; nodup_from Hfresh.
  - exact Hnd.
Qed.

Lemma undo_NoDup (w w' : World) :
  undo w = Some (tt, w') →
  NoDup (held (historyState w)) → NoDup (held (historyState w')).
Proof.
  destruct w as [h ex [c r u] calls].
  change (Build_HistoryState c r u) with (historyOf c u r).
  destruct u as [|a u _] using rev_ind.
  { rewrite undo_empty_stack. intros [= <-]. trivial. }
  destruct c as [c|].
  - destruct (hasDirtyNodes (h c)) eqn:Hd.
    + rewrite undo_push_current by (right; exact Hd).
      intros [= <-] Hnd. nodup_from Hnd.
    + destruct u as [|b u _] using rev_ind.
      * rewrite (undo_push_current h ex r calls c [] a) by (left; reflexivity).
        intros [= <-] Hnd. nodup_from Hnd.
      * rewrite undo_skip by exact Hd. intros [= <-] Hnd. nodup_from Hnd.
  - rewrite undo_no_current. intros [= <-] Hnd. nodup_from Hnd.
Qed.

Lemma redo_NoDup (w w' : World) :
  redo w = Some (tt, w') →
  NoDup (held (historyState w)) → NoDup (held (historyState w')).
Proof.
  destruct w as [h ex [c r u] calls].
  change (Build_HistoryState c r u) with (historyOf c u r).
  destruct r as [|b r _] using rev_ind.
  - rewrite redo_empty_stack. intros [= <-]. trivial.
  - rewrite redo_nonempty. intros [= <-] Hnd. destruct c; nodup_from Hnd.
Qed.

Lemma setHistoryState_NoDup (w w' : World) (u r : list ViewModelRef) :
  bringsNoDuplicate (SetStacks u r) w →
  setHistoryState u r w = Some (tt, w') →
  NoDup (held (historyState w')).
Proof.
  intros [Hnd Hc]. unfold setHistoryState. mstep. intros [= <-].
  cbn [historyState]. destruct (historyState w) as [c r0 u0].
  cbn [current] in *. unfold held. cbn [undoStack redoStack current].
  destruct c as [c|]; cbn [option_list option_rect].
  - specialize (Hc c eq_refl).
    assert (NoDup (c :: u ++ r)) as Hcons.
    { apply NoDup_cons. split; assumption. }
    eapply NoDup_submseteq_mono; [|exact Hcons]. solve_submseteq.
  - exact Hnd.
Qed.

Lemma exec_NoDup (op : Op) (w w' : World) :
  bringsNoDuplicate op w →
  exec op w = Some (tt, w') →
  NoDup (held (historyState w)) → NoDup (held (historyState w')).
Proof.
  destruct op as [viewModel| | |u r]; cbn [exec]; intros Hok Hexec Hnd.
  - exact (applyChange_NoDup w w' viewModel Hok Hexec Hnd).
  - exact (undo_NoDup w w' Hexec Hnd).
  - exact (redo_NoDup w w' Hexec Hnd).
  - exact (setHistoryState_NoDup w w' u r Hok Hexec).
Qed.

Lemma reachable_NoDup (w : World) :
  reachableVia bringsNoDuplicate w → NoDup (held (historyState w)).
Proof.
  induction 1 as [w Hinit|w op w' _ IH Hok Hexec].
  - rewrite Hinit. apply NoDup_nil. trivial.
  - exact (exec_NoDup op w w' Hok Hexec IH).
Qed.

(** C9, as stated, fails: after one update the setter may be handed a stack
    that holds the current view model; the state is reachable through the
    exposed operations and its current view model is on the undo stack. *)
Lemma setHistoryState_current_on_undoStack :
  reachable (Examples.world ∅ (historyOf (Some 1%nat) [1%nat] [])) ∧
  current (historyState (Examples.world ∅ (historyOf (Some 1%nat) [1%nat] [])))
    = Some 1%nat ∧
  1%nat ∈ undoStack
            (historyState (Examples.world ∅ (historyOf (Some 1%nat) [1%nat] []))) ∧
  ¬ currentNotInStacks
      (historyState (Examples.world ∅ (historyOf (Some 1%nat) [1%nat] []))).
Proof.
  split; [|split; [reflexivity|split]].
  - apply (reach_step anyOp (Examples.world ∅ (historyOf (Some 1%nat) [] []))
             (SetStacks [1%nat] [])).
    + apply (reach_step anyOp (Examples.world ∅ initialHistoryState)
               (RecordUpdate 1%nat)).
      * apply reach_init. reflexivity.
      * exact I.
      * vm_compute. reflexivity.
    + exact I.
    + reflexivity.
  - left.
  - intros H. destruct (H 1%nat eq_refl) as [Hu _]. apply Hu. left.
Qed.

(** The same happens without the setter, when an update brings back a view
    model that is already on the undo stack. *)
Lemma applyChange_current_on_undoStack :
  (λ p, historyState (snd p)) <$>
    run [RecordUpdate 1%nat; RecordUpdate 5%nat; RecordUpdate 1%nat]
      (Examples.world ∅ initialHistoryState)
  = Some (historyOf (Some 1%nat) [1%nat] []).
Proof. vm_compute. reflexivity. Qed.

(** C9, amended: in every state reached from a fresh history state through
    [undo], [redo], updates with a view model that is in neither stack, and
    setter calls whose stacks hold no view model twice and not the current
    one, the current view model is in neither stack. *)
Theorem current_never_in_stacks (w : World) :
  reachableVia bringsNoDuplicate w →
  currentNotInStacks (historyState w).
Proof.
  intros Hreach. apply NoDup_held_currentNotInStacks.
  apply reachable_NoDup. exact Hreach.
Qed.

Lemma current_never_in_stacks_witness :
  currentNotInStacks (historyOf (Some 1%nat) [] [5%nat]).
Proof.
  apply (current_never_in_stacks
           (restored 1%nat (historyOf (Some 1%nat) [] [5%nat])
              (Examples.world ∅ (historyOf (Some 5%nat) [1%nat] [])))).
  apply (reach_step _ (Examples.world ∅ (historyOf (Some 5%nat) [1%nat] [])) Undo).
  - apply (reach_step _ (Examples.world ∅ (historyOf (Some 1%nat) [] []))
             (RecordUpdate 5%nat)).
    + apply (reach_step _ (Examples.world ∅ initialHistoryState)
               (RecordUpdate 1%nat)).
      * apply reach_init. reflexivity.
      * split; intros H; inversion H.
      * vm_compute. reflexivity.
    + split; intros H; inversion H.
    + vm_compute. reflexivity.
  - exact I.
  - vm_compute. reflexivity.
Defined.

(** * Further properties of the hook *)

(** ** The operations by cases, on any world *)

Lemma undo_cases (w : World) :
  (undoStack (historyState w) = [] ∧ undo w = Some (tt, w)) ∨
  (∃ u a,
     current (historyState w) = None ∧
     undoStack (historyState w) = u ++ [a] ∧
     undo w = Some (tt, restored a
                          (historyOf (Some a) u (redoStack (historyState w))) w)) ∨
  (∃ c u a b,
     current (historyState w) = Some c ∧
     undoStack (historyState w) = u ++ [a; b] ∧
     hasDirtyNodes (heap w c) = false ∧
     undo w = Some (tt, restored a
                          (historyOf (Some a) u (redoStack (historyState w) ++ [b]))
                          w)) ∨
  (∃ c u a,
     current (historyState w) = Some c ∧
     undoStack (historyState w) = u ++ [a] ∧
     (u = [] ∨ hasDirtyNodes (heap w c) = true) ∧
     undo w = Some (tt, restored a
                          (historyOf (Some a) u (redoStack (historyState w) ++ [c]))
                          w)).
Proof.
  destruct (undoStack (historyState w)) as [|a u _] eqn:Hu using rev_ind.
  { left. split; [reflexivity|].
    destruct w as [h ex [c r u] calls]. cbn in Hu. subst u.
    apply (undo_empty_stack h ex r calls c). }
  right. destruct (current (historyState w)) as [c|] eqn:Hc.
  - right. destruct (hasDirtyNodes (heap w c)) eqn:Hd.
    + right. exists c, u, a. split; [reflexivity|]. split; [reflexivity|].
      split; [right; exact Hd|].
      apply (undo_push_current_at w c u a Hc Hu). right. exact Hd.
    + destruct u as [|b u _] using rev_ind.
      * right. exists c, [], a. split; [reflexivity|]. split; [reflexivity|].
        split; [left; reflexivity|].
        apply (undo_push_current_at w c [] a Hc Hu). left. reflexivity.
      * left. exists c, u, b, a. split; [reflexivity|].
        rewrite <- app_assoc. split; [reflexivity|]. split; [exact Hd|].
        apply (undo_skip_at w c u b a Hc); [|exact Hd].
        rewrite Hu, <- app_assoc. reflexivity.
  - left. exists u, a. split; [reflexivity|]. split; [reflexivity|].
    destruct w as [h ex [c r u'] calls]. cbn in Hc, Hu. subst c u'.
    apply (undo_no_current h ex r calls u a).
Qed.

Lemma redo_cases (w : World) :
  (redoStack (historyState w) = [] ∧ redo w = Some (tt, w)) ∨
  (∃ r b,
     redoStack (historyState w) = r ++ [b] ∧
     redo w = Some (tt, restored b
                          (historyOf (Some b)
                             (undoStack (historyState w)
                                ++ option_list (current (historyState w))) r) w)).
Proof.
  destruct (redoStack (historyState w)) as [|b r _] eqn:Hr using rev_ind.
  - left. split; [reflexivity|].
    destruct w as [h ex [c r u] calls]. cbn in Hr. subst r.
    apply (redo_empty_stack h ex u calls c).
  - right. exists r, b. split; [reflexivity|].
    apply (redo_nonempty_stack w r b Hr).
Qed.

Lemma applyChange_cases (w : World) (viewModel : ViewModelRef) :
  (current (historyState w) = Some viewModel ∧
   applyChange viewModel w = Some (tt, w)) ∨
  (Some viewModel ≠ current (historyState w) ∧
   isDirty (heap w viewModel) = true ∧
   applyChange viewModel w =
     Some (tt, with_history
                 (λ hs, historyOf (Some viewModel) (undoStack hs) (redoStack hs))
                 w)) ∨
  (∃ a w1,
     Some viewModel ≠ current (historyState w) ∧
     isDirty (heap w viewModel) = false ∧
     getMergeAction (current (historyState w)) viewModel w = Some (a, w1) ∧
     applyChange viewModel w =
       Some (tt,
             match a with
             | MERGE =>
               with_history
                 (λ hs, historyOf (Some viewModel) (undoStack hs) (redoStack hs))
                 w1
             | NO_MERGE =>
               with_history
                 (λ hs, historyOf (Some viewModel)
                          (undoStack hs ++ option_list (current (historyState w)))
                          []) w1
             | DISCARD => w1
             end)).
Proof.
  destruct (decide (Some viewModel = current (historyState w))) as [Heq|Hne].
  { left. split; [symmetry; exact Heq|].
    apply applyChange_current. symmetry. exact Heq. }
  right. destruct (isDirty (heap w viewModel)) eqn:Hd.
  - left. split; [exact Hne|]. split; [first [exact Hd|reflexivity]|].
    apply applyChange_dirty; assumption.
  - right.
    destruct (getMergeAction_total w viewModel (current (historyState w)))
      as [[a w1] Hdec].
    exists a, w1. split; [exact Hne|]. split; [first [exact Hd|reflexivity]|].
    split; [exact Hdec|]. apply applyChange_decided; assumption.
Qed.

(** ** The merge decision, branch by branch *)

(** X1: [getMergeAction] always returns; it leaves the store, the history
    state and the editor alone, and takes the next view model, and nothing
    else, out of [viewModelsWithoutHistory]. *)
Theorem getMergeAction_frame (prev : option ViewModelRef) (next : ViewModelRef)
    (w : World) :
  ∃ a w',
    getMergeAction prev next w = Some (a, w') ∧
    heap w' = heap w ∧
    historyState w' = historyState w ∧
    editorCalls w' = editorCalls w ∧
    viewModelsWithoutHistory w' = viewModelsWithoutHistory w ∖ {[ next ]}.
Proof.
  destruct (decide (next ∈ viewModelsWithoutHistory w)) as [Hin|Hnin].
  - eexists _, _. split; [apply getMergeAction_exempt; exact Hin|].
    repeat split.
  - eexists _, _. split; [apply getMergeAction_not_exempt; exact Hnin|].
    split; [reflexivity|]. split; [reflexivity|]. split; [reflexivity|].
    symmetry. apply difference_disjoint_L, disjoint_singleton_r. exact Hnin.
Qed.

(** X2: the exemption is used up by one decision: for a next view model in
    [viewModelsWithoutHistory] the decision is [MERGE], and asking again
    right away gives what the content of the two view models decides. *)
Theorem getMergeAction_exemption_one_shot (prev : option ViewModelRef)
    (next : ViewModelRef) (w : World) :
  next ∈ viewModelsWithoutHistory w →
  ∃ w1,
    getMergeAction prev next w = Some (MERGE, w1) ∧
    (next ∉ viewModelsWithoutHistory w1) ∧
    getMergeAction prev next w1 = Some (contentDecision prev next w, w1).
Proof.
  intros Hin. eexists. split; [apply getMergeAction_exempt; exact Hin|].
  assert (next ∉ viewModelsWithoutHistory w ∖ {[ next ]}) as Hnin.
  { apply not_elem_of_difference. right. apply elem_of_singleton. reflexivity. }
  split; [exact Hnin|].
  rewrite getMergeAction_not_exempt by exact Hnin. reflexivity.
Qed.

Lemma getMergeAction_exemption_one_shot_witness :
  ∃ w1,
    getMergeAction None 0%nat (Examples.world {[ 0%nat ]} initialHistoryState)
      = Some (MERGE, w1) ∧
    (0%nat ∉ viewModelsWithoutHistory w1) ∧
    getMergeAction None 0%nat w1 = Some (NO_MERGE, w1).
Proof.
  apply (getMergeAction_exemption_one_shot None 0%nat
           (Examples.world {[ 0%nat ]} initialHistoryState)).
  vm_compute. reflexivity.
Defined.

(** X3: the decision is [DISCARD] exactly when the next view model is not in
    [viewModelsWithoutHistory], there is a previous view model, and the next
    one reports no dirty nodes. *)
Theorem getMergeAction_DISCARD_iff (prev : option ViewModelRef)
    (next : ViewModelRef) (w : World) :
  mergeDecision prev next w = Some DISCARD ↔
  (next ∉ viewModelsWithoutHistory w) ∧
  is_Some prev ∧
  hasDirtyNodes (heap w next) = false.
Proof.
  unfold mergeDecision.
  destruct (decide (next ∈ viewModelsWithoutHistory w)) as [Hin|Hnin].
  { rewrite getMergeAction_exempt by exact Hin. cbn. split.
    - discriminate.
    - intros [Hnin _]. contradiction. }
  rewrite getMergeAction_not_exempt by exact Hnin. cbn.
  unfold contentDecision. destruct prev as [prev|].
  - destruct (hasDirtyNodes (heap w next)); cbn [negb].
    + split.
      * destruct (getDirtyNodes (heap w next)) as [|n [|n' l]]; cbn;
          try discriminate.
        unfold singleDirtyNode.
        repeat (match goal with
                | |- context [match ?x with _ => _ end] => destruct x
                end; cbn; try discriminate).
      * intros (_ & _ & Hf). discriminate.
    + split; [intros _; split; [exact Hnin|split; [eauto|reflexivity]]|reflexivity].
  - split; [discriminate|]. intros (_ & [p Hp] & _). discriminate.
Qed.

(** X4: the decision is [MERGE] exactly when the next view model is in
    [viewModelsWithoutHistory], or there is a previous view model, the next
    one reports dirty nodes, exactly one, a text node that the previous view
    model holds under the same key as a text node with the same flags and a
    non-empty text, and either the two texts have the same length, or the
    lengths differ by one and a selection is missing or the anchor stayed
    in its node and moved one position forward. *)
Theorem getMergeAction_MERGE_iff (prev : option ViewModelRef)
    (next : ViewModelRef) (w : World) :
  mergeDecision prev next w = Some MERGE ↔
  next ∈ viewModelsWithoutHistory w ∨
  ∃ p key flags nextText prevKey prevText,
    prev = Some p ∧
    hasDirtyNodes (heap w next) = true ∧
    getDirtyNodes (heap w next) = [TextNode key flags nextText] ∧
    _nodeMap (heap w p) !! key = Some (TextNode prevKey flags prevText) ∧
    prevText ≠ "" ∧
    (String.length nextText = String.length prevText ∨
     ((String.length nextText = String.length prevText + 1
       ∨ String.length nextText + 1 = String.length prevText)%nat ∧
      (_selection (heap w next) = None ∨
       _selection (heap w p) = None ∨
       ∃ selection prevSelection,
         _selection (heap w next) = Some selection ∧
         _selection (heap w p) = Some prevSelection ∧
         anchorKey selection = anchorKey prevSelection ∧
         anchorOffset selection = anchorOffset prevSelection + 1))).
Proof.
  unfold mergeDecision.
  destruct (decide (next ∈ viewModelsWithoutHistory w)) as [Hin|Hnin].
  { rewrite getMergeAction_exempt by exact Hin. cbn. split; [intros _; left; exact Hin|reflexivity]. }
  rewrite getMergeAction_not_exempt by exact Hnin. cbn [fmap option_fmap option_map fst].
  unfold contentDecision. split.
  - intros H. right.
    destruct prev as [p|]; [|discriminate].
    destruct (hasDirtyNodes (heap w next)) eqn:Hhas; [|discriminate].
    destruct (getDirtyNodes (heap w next)) as [|n [|n' l]] eqn:Hdirty;
      try discriminate.
    cbn [negb default] in H. unfold singleDirtyNode in H.
    destruct (_nodeMap (heap w p) !! __key n) as [pn|] eqn:Hpn; [|discriminate].
    destruct pn as [pk pf pt|pk pf]; destruct n as [k f t|k f]; try discriminate.
    cbn [__key] in Hpn.
    exists p, k, f, t, pk, pt. revert H.
    repeat case_decide; try discriminate.
    all: subst pf.
    + intros _. repeat (split; [done|]). left. lia.
    + destruct (_selection (heap w next)) as [sel|] eqn:Hsel;
        [destruct (_selection (heap w p)) as [psel|] eqn:Hpsel|].
      * repeat case_decide; try discriminate.
        intros _. repeat (split; [done|]). right. split; [lia|].
        right. right. exists sel, psel.
        split; [reflexivity|]. split; [reflexivity|].
        split; [|lia]. destruct (decide (anchorKey sel = anchorKey psel)); tauto.
      * intros _. repeat (split; [done|]). right. split; [lia|]. tauto.
      * intros _. repeat (split; [done|]). right. split; [lia|]. tauto.
  - intros [Hin|(p & key & flags & nextText & prevKey & prevText & -> & Hhas
                 & Hdirty & Hpn & Hne & Hcase)]; [contradiction|].
    rewrite Hhas, Hdirty. cbn [negb default]. unfold singleDirtyNode.
    cbn [__key]. rewrite Hpn.
    rewrite decide_True by reflexivity.
    rewrite decide_False by exact Hne.
    destruct Hcase as [Hlen|[Hlen Hsel]].
    + rewrite decide_True by lia. reflexivity.
    + rewrite decide_False by lia. rewrite decide_True by lia.
      destruct Hsel as [->|[Hp|(sel & psel & -> & -> & Hkey & Hoff)]].
      * reflexivity.
      * rewrite Hp. destruct (_selection (heap w next)); reflexivity.
      * rewrite decide_False by tauto. rewrite decide_True by lia. reflexivity.
Qed.

(** The theorems of this section are about a next view model that is not in
    [viewModelsWithoutHistory] and reports dirty nodes, decided against a
    previous view model that is present. *)
Section OtherBranches.

Variable w : World.
Variables prev next : ViewModelRef.
Hypothesis not_exempt : next ∉ viewModelsWithoutHistory w.
Hypothesis has_dirty : hasDirtyNodes (heap w next) = true.

Lemma getMergeAction_single (nextDirtyNode : OutlineNode) :
  getDirtyNodes (heap w next) = [nextDirtyNode] →
  getMergeAction (Some prev) next w =
    Some (default NO_MERGE
            (singleDirtyNode (heap w prev) (heap w next) nextDirtyNode), w).
Proof.
  intros Hdirty. rewrite getMergeAction_not_exempt by exact not_exempt.
  unfold contentDecision. rewrite has_dirty, Hdirty. reflexivity.
Qed.

(** X5: one character typed or removed in the single dirty text node, both
    selections present, but the anchor is in another node or did not move
    exactly one position forward (a jump, or a removal that leaves the caret
    in place or moves it back): the decision is [NO_MERGE]. *)
Theorem getMergeAction_caret_not_advanced
    (key prevKey : NodeKey) (flags : Z) (prevText nextText : string)
    (selection prevSelection : Selection) :
  getDirtyNodes (heap w next) = [TextNode key flags nextText] →
  _nodeMap (heap w prev) !! key = Some (TextNode prevKey flags prevText) →
  prevText ≠ "" →
  (String.length nextText = String.length prevText + 1
   ∨ String.length nextText + 1 = String.length prevText)%nat →
  _selection (heap w next) = Some selection →
  _selection (heap w prev) = Some prevSelection →
  anchorKey selection ≠ anchorKey prevSelection
  ∨ anchorOffset selection ≠ anchorOffset prevSelection + 1 →
  getMergeAction (Some prev) next w = Some (NO_MERGE, w).
Proof.
  intros Hdirty Hprev Hne Hlen Hsel Hpsel Hcaret.
  rewrite (getMergeAction_single _ Hdirty).
  unfold singleDirtyNode. cbn [__key]. rewrite Hprev, Hsel, Hpsel.
  rewrite decide_True by reflexivity.
  rewrite decide_False by exact Hne.
  rewrite decide_False by lia.
  rewrite decide_True by lia.
  destruct (decide (anchorKey selection ≠ anchorKey prevSelection)) as [Hk|Hk].
  - reflexivity.
  - rewrite decide_False; [reflexivity|].
    destruct Hcaret as [Hcaret|Hcaret]; [contradiction|lia].
Qed.

(** X6: the single dirty text node kept its flags and the length of its
    non-empty text: the decision is [MERGE], whatever the selections are. *)
Theorem getMergeAction_same_length
    (key prevKey : NodeKey) (flags : Z) (prevText nextText : string) :
  getDirtyNodes (heap w next) = [TextNode key flags nextText] →
  _nodeMap (heap w prev) !! key = Some (TextNode prevKey flags prevText) →
  prevText ≠ "" →
  String.length nextText = String.length prevText →
  getMergeAction (Some prev) next w = Some (MERGE, w).
Proof.
  intros Hdirty Hprev Hne Hlen.
  rewrite (getMergeAction_single _ Hdirty).
  unfold singleDirtyNode. cbn [__key]. rewrite Hprev.
  rewrite decide_True by reflexivity.
  rewrite decide_False by exact Hne.
  rewrite decide_True by lia. reflexivity.
Qed.

(** X7: the text of the single dirty text node grew or shrank by two
    characters or more: the decision is [NO_MERGE]. *)
Theorem getMergeAction_long_change
    (key prevKey : NodeKey) (flags : Z) (prevText nextText : string) :
  getDirtyNodes (heap w next) = [TextNode key flags nextText] →
  _nodeMap (heap w prev) !! key = Some (TextNode prevKey flags prevText) →
  (String.length prevText + 2 ≤ String.length nextText
   ∨ String.length nextText + 2 ≤ String.length prevText)%nat →
  getMergeAction (Some prev) next w = Some (NO_MERGE, w).
Proof.
  intros Hdirty Hprev Hlen.
  rewrite (getMergeAction_single _ Hdirty).
  unfold singleDirtyNode. cbn [__key]. rewrite Hprev.
  rewrite decide_True by reflexivity.
  destruct (decide (prevText = "")); [reflexivity|].
  rewrite decide_False by lia.
  rewrite decide_False by lia. reflexivity.
Qed.

(** X8: the next view model reports dirty nodes, but not exactly one: the
    decision is [NO_MERGE]. *)
Theorem getMergeAction_not_one_dirty_node :
  length (getDirtyNodes (heap w next)) ≠ 1%nat →
  getMergeAction (Some prev) next w = Some (NO_MERGE, w).
Proof.
  intros Hlen. rewrite getMergeAction_not_exempt by exact not_exempt.
  unfold contentDecision. rewrite has_dirty.
  destruct (getDirtyNodes (heap w next)) as [|n [|n' l]]; try reflexivity.
  contradiction Hlen. reflexivity.
Qed.

(** X9: the single dirty node is not a text node, or the previous view
    model holds no node under its key, or holds one that is not a text node
    or has other flags: the decision is [NO_MERGE]. *)
Theorem getMergeAction_other_node (nextDirtyNode : OutlineNode) :
  getDirtyNodes (heap w next) = [nextDirtyNode] →
  isTextNode nextDirtyNode = false
  ∨ _nodeMap (heap w prev) !! __key nextDirtyNode = None
  ∨ (∃ prevDirtyNode,
       _nodeMap (heap w prev) !! __key nextDirtyNode = Some prevDirtyNode ∧
       (isTextNode prevDirtyNode = false
        ∨ __flags prevDirtyNode ≠ __flags nextDirtyNode)) →
  getMergeAction (Some prev) next w = Some (NO_MERGE, w).
Proof.
  intros Hdirty Hcase.
  rewrite (getMergeAction_single _ Hdirty).
  unfold singleDirtyNode.
  destruct (_nodeMap (heap w prev) !! __key nextDirtyNode) as [pn|] eqn:Hpn;
    [|reflexivity].
  destruct pn as [pk pf pt|pk pf]; destruct nextDirtyNode as [k f t|k f];
    try reflexivity.
  destruct Hcase as [Hn|[Hn|(pn & Hn & [Ht|Hf])]]; try discriminate.
  - injection Hn as <-. discriminate.
  - injection Hn as <-. cbn [__flags] in Hf.
    rewrite decide_False by exact Hf. reflexivity.
Qed.

End OtherBranches.

(** A character typed with the caret jumping from offset 2 to offset 5, and
    a character removed from ["abc"] with the caret going back from 3 to 2. *)
Lemma getMergeAction_caret_not_advanced_witness :
  getMergeAction (Some 1%nat) 6%nat (MoreExamples.world ∅ initialHistoryState)
    = Some (NO_MERGE, MoreExamples.world ∅ initialHistoryState) ∧
  getMergeAction (Some 2%nat) 1%nat (MoreExamples.world ∅ initialHistoryState)
    = Some (NO_MERGE, MoreExamples.world ∅ initialHistoryState).
Proof.
  split.
  - apply (getMergeAction_caret_not_advanced
             (MoreExamples.world ∅ initialHistoryState) 1%nat 6%nat
             ltac:(vm_compute; intros H; inversion H) eq_refl
             "t"%string "t"%string 0 "ab"%string "abc"%string
             {| anchorKey := "t"; anchorOffset := 5 |}
             {| anchorKey := "t"; anchorOffset := 2 |}).
    + reflexivity.
    + vm_compute. reflexivity.
    + discriminate.
    + left. reflexivity.
    + reflexivity.
    + reflexivity.
    + right. discriminate.
  - apply (getMergeAction_caret_not_advanced
             (MoreExamples.world ∅ initialHistoryState) 2%nat 1%nat
             ltac:(vm_compute; intros H; inversion H) eq_refl
             "t"%string "t"%string 0 "abc"%string "ab"%string
             {| anchorKey := "t"; anchorOffset := 2 |}
             {| anchorKey := "t"; anchorOffset := 3 |}).
    + reflexivity.
    + vm_compute. reflexivity.
    + discriminate.
    + right. reflexivity.
    + reflexivity.
    + reflexivity.
    + right. discriminate.
Defined.

Lemma getMergeAction_same_length_witness :
  getMergeAction (Some 1%nat) 7%nat (MoreExamples.world ∅ initialHistoryState)
    = Some (MERGE, MoreExamples.world ∅ initialHistoryState).
Proof.
  apply (getMergeAction_same_length
           (MoreExamples.world ∅ initialHistoryState) 1%nat 7%nat
           ltac:(vm_compute; intros H; inversion H) eq_refl
           "t"%string "t"%string 0 "ab"%string "aB"%string).
  - reflexivity.
  - vm_compute. reflexivity.
  - discriminate.
  - reflexivity.
Defined.

Lemma getMergeAction_long_change_witness :
  getMergeAction (Some 1%nat) 9%nat (MoreExamples.world ∅ initialHistoryState)
    = Some (NO_MERGE, MoreExamples.world ∅ initialHistoryState).
Proof.
  apply (getMergeAction_long_change
           (MoreExamples.world ∅ initialHistoryState) 1%nat 9%nat
           ltac:(vm_compute; intros H; inversion H) eq_refl
           "t"%string "t"%string 0 "ab"%string "abxyz"%string).
  - reflexivity.
  - vm_compute. reflexivity.
  - left. vm_compute. lia.
Defined.

Lemma getMergeAction_not_one_dirty_node_witness :
  getMergeAction (Some 1%nat) 5%nat (MoreExamples.world ∅ initialHistoryState)
    = Some (NO_MERGE, MoreExamples.world ∅ initialHistoryState).
Proof.
  apply (getMergeAction_not_one_dirty_node
           (MoreExamples.world ∅ initialHistoryState) 1%nat 5%nat
           ltac:(vm_compute; intros H; inversion H) eq_refl).
  vm_compute. lia.
Defined.

(** The format of ["ab"] changed. *)
Lemma getMergeAction_other_node_witness :
  getMergeAction (Some 1%nat) 8%nat (MoreExamples.world ∅ initialHistoryState)
    = Some (NO_MERGE, MoreExamples.world ∅ initialHistoryState).
Proof.
  apply (getMergeAction_other_node
           (MoreExamples.world ∅ initialHistoryState) 1%nat 8%nat
           ltac:(vm_compute; intros H; inversion H) eq_refl
           (TextNode "t" 1 "ab")).
  - reflexivity.
  - right. right. exists (TextNode "t" 0 "ab").
    split; [vm_compute; reflexivity|]. right. discriminate.
Defined.

(** ** Recording updates, continued *)

Lemma getMergeAction_DISCARD_world (prev : option ViewModelRef)
    (next : ViewModelRef) (w w1 : World) :
  getMergeAction prev next w = Some (DISCARD, w1) → w1 = w.
Proof.
  destruct (decide (next ∈ viewModelsWithoutHistory w)) as [Hin|Hnin].
  - rewrite getMergeAction_exempt by exact Hin. discriminate.
  - rewrite getMergeAction_not_exempt by exact Hnin. intros [= _ <-]. reflexivity.
Qed.

Lemma classifiedAs_NO_MERGE_hasDirtyNodes (w : World) (viewModel c : ViewModelRef) :
  classifiedAs NO_MERGE viewModel w →
  current (historyState w) = Some c →
  hasDirtyNodes (heap w viewModel) = true.
Proof.
  intros Hcl Hc. pose proof (classifiedAs_NO_MERGE_not_exempt _ _ Hcl) as Hnin.
  destruct Hcl as (_ & _ & Hdec). unfold mergeDecision in Hdec.
  rewrite getMergeAction_not_exempt in Hdec by exact Hnin.
  rewrite Hc in Hdec. cbn in Hdec.
  destruct (hasDirtyNodes (heap w viewModel)); [reflexivity|discriminate].
Qed.

(** X10: a repeated update notification changes nothing: running
    [applyChange] a second time with the same view model leaves the world
    exactly as the first run left it. *)
Theorem applyChange_idempotent (w : World) (viewModel : ViewModelRef) :
  ∃ w',
    applyChange viewModel w = Some (tt, w') ∧
    applyChange viewModel w' = Some (tt, w').
Proof.
  destruct (applyChange_cases w viewModel)
    as [[Hc Happ]|[(Hne & Hd & Happ)|(a & w1 & Hne & Hd & Hdec & Happ)]].
  - exists w. split; exact Happ.
  - eexists. split; [exact Happ|]. apply applyChange_current. reflexivity.
  - destruct a.
    + eexists. split; [exact Happ|]. apply applyChange_current. reflexivity.
    + eexists. split; [exact Happ|]. apply applyChange_current. reflexivity.
    + apply getMergeAction_DISCARD_world in Hdec. subst w1.
      exists w. split; exact Happ.
Qed.

(** X11: [applyChange] always returns; it never touches the view-model
    objects nor calls the editor; it either leaves the history state alone
    or makes the view model current; it changes the stacks only when the
    update is decided [NO_MERGE]; and for a view model marked dirty it
    leaves [viewModelsWithoutHistory] as it is. *)
Theorem applyChange_frame (w : World) (viewModel : ViewModelRef) :
  ∃ w',
    applyChange viewModel w = Some (tt, w') ∧
    heap w' = heap w ∧
    editorCalls w' = editorCalls w ∧
    (historyState w' = historyState w
     ∨ current (historyState w') = Some viewModel) ∧
    (¬ classifiedAs NO_MERGE viewModel w →
     undoStack (historyState w') = undoStack (historyState w) ∧
     redoStack (historyState w') = redoStack (historyState w)) ∧
    (isDirty (heap w viewModel) = true →
     viewModelsWithoutHistory w' = viewModelsWithoutHistory w).
Proof.
  destruct (applyChange_cases w viewModel)
    as [[Hc Happ]|[(Hne & Hd & Happ)|(a & w1 & Hne & Hd & Hdec & Happ)]].
  - exists w. split; [exact Happ|]. repeat split. left. reflexivity.
  - eexists. split; [exact Happ|]. repeat split. right. reflexivity.
  - eexists. split; [exact Happ|].
    assert (heap w1 = heap w ∧ editorCalls w1 = editorCalls w ∧
            historyState w1 = historyState w) as (Hh & He & Hhs).
    { destruct (decide (viewModel ∈ viewModelsWithoutHistory w)) as [Hin|Hnin].
      - rewrite getMergeAction_exempt in Hdec by exact Hin.
        injection Hdec as _ <-. repeat split.
      - rewrite getMergeAction_not_exempt in Hdec by exact Hnin.
        injection Hdec as _ <-. repeat split. }
    split; [destruct a; exact Hh|]. split; [destruct a; exact He|].
    split; [destruct a; [right; reflexivity|right; reflexivity|left; exact Hhs]|].
    split; [|congruence].
    intros Hncl. destruct a.
    + cbn. rewrite Hhs. split; reflexivity.
    + contradict Hncl. split; [exact Hne|]. split; [exact Hd|].
      unfold mergeDecision. rewrite Hdec. reflexivity.
    + rewrite Hhs. split; reflexivity.
Qed.

(** X12: an update decided [NO_MERGE] over a current view model [c] is taken
    back by [undo]: [c] is current again over the undo stack of before, and
    the redo stack holds the new view model alone. *)
Theorem applyChange_then_undo (w : World) (viewModel c : ViewModelRef) :
  classifiedAs NO_MERGE viewModel w →
  current (historyState w) = Some c →
  ∃ w1 w2,
    applyChange viewModel w = Some (tt, w1) ∧
    undo w1 = Some (tt, w2) ∧
    historyState w2 = historyOf (Some c) (undoStack (historyState w)) [viewModel].
Proof.
  intros Hcl Hc.
  pose proof (classifiedAs_NO_MERGE_hasDirtyNodes w viewModel c Hcl Hc) as Hhas.
  eexists _, _. split; [exact (applyChange_NO_MERGE_result w viewModel Hcl)|].
  split.
  - apply (undo_push_current_at _ viewModel (undoStack (historyState w)) c).
    + reflexivity.
    + cbn. rewrite Hc. reflexivity.
    + right. exact Hhas.
  - reflexivity.
Qed.

Lemma applyChange_then_undo_witness :
  ∃ w1 w2,
    applyChange 5%nat (Examples.world ∅ (historyOf (Some 1%nat) [3%nat] [2%nat]))
      = Some (tt, w1) ∧
    undo w1 = Some (tt, w2) ∧
    historyState w2 = historyOf (Some 1%nat) [3%nat] [5%nat].
Proof.
  apply (applyChange_then_undo
           (Examples.world ∅ (historyOf (Some 1%nat) [3%nat] [2%nat]))
           5%nat 1%nat).
  - split; [discriminate|]. split; [reflexivity|]. vm_compute. reflexivity.
  - reflexivity.
Defined.

(** X13: after an update decided [NO_MERGE] there is nothing to redo:
    [redo] leaves the world as the update left it. *)
Theorem applyChange_then_redo (w : World) (viewModel : ViewModelRef) :
  classifiedAs NO_MERGE viewModel w →
  ∃ w1,
    applyChange viewModel w = Some (tt, w1) ∧
    redo w1 = Some (tt, w1).
Proof.
  intros Hcl.
  eexists. split; [exact (applyChange_NO_MERGE_result w viewModel Hcl)|].
  match goal with |- redo ?w1 = _ => destruct (redo_cases w1) as [[_ H]|(r & b & Hr & _)] end.
  - exact H.
  - cbn in Hr. destruct r; discriminate.
Qed.

Lemma applyChange_then_redo_witness :
  ∃ w1,
    applyChange 5%nat (Examples.world ∅ (historyOf (Some 1%nat) [3%nat] [2%nat]))
      = Some (tt, w1) ∧
    redo w1 = Some (tt, w1).
Proof.
  apply (applyChange_then_redo
           (Examples.world ∅ (historyOf (Some 1%nat) [3%nat] [2%nat])) 5%nat).
  split; [discriminate|]. split; [reflexivity|]. vm_compute. reflexivity.
Defined.

(** ** Undo and redo, continued *)

(** X14: with a non-empty redo stack, [redo] pushes the current view model,
    when there is one, on the undo stack, pops the top of the redo stack,
    makes it current, marks it dirty and hands it to the editor. *)
Theorem redo_with_entries (w : World) (r : list ViewModelRef) (b : ViewModelRef) :
  redoStack (historyState w) = r ++ [b] →
  redo w = Some (tt, restored b
                       (historyOf (Some b)
                          (undoStack (historyState w)
                             ++ option_list (current (historyState w))) r) w).
Proof. exact (redo_nonempty_stack w r b). Qed.

Lemma redo_with_entries_witness :
  redo (Examples.world ∅ (historyOf (Some 1%nat) [3%nat] [4%nat; 2%nat]))
    = Some (tt, restored 2%nat (historyOf (Some 2%nat) [3%nat; 1%nat] [4%nat])
                  (Examples.world ∅
                     (historyOf (Some 1%nat) [3%nat] [4%nat; 2%nat]))).
Proof.
  apply (redo_with_entries
           (Examples.world ∅ (historyOf (Some 1%nat) [3%nat] [4%nat; 2%nat]))
           [4%nat] 2%nat).
  reflexivity.
Defined.

(** X15: when [undo] puts the current view model itself on the redo stack
    (the undo stack has one entry, or the current view model has dirty
    nodes), a following [redo] brings back the history state of before; the
    editor has been handed the restored view model and then the former
    current one. *)
Theorem undo_then_redo (w : World) (c a : ViewModelRef) (u : list ViewModelRef) :
  current (historyState w) = Some c →
  undoStack (historyState w) = u ++ [a] →
  u = [] ∨ hasDirtyNodes (heap w c) = true →
  ∃ w1 w2,
    undo w = Some (tt, w1) ∧
    redo w1 = Some (tt, w2) ∧
    historyState w2 = historyState w ∧
    editorCalls w2 = editorCalls w ++ [a; c].
Proof.
  intros Hc Hu Hcase. eexists _, _.
  split; [exact (undo_push_current_at w c u a Hc Hu Hcase)|].
  split; [apply (redo_nonempty_stack _ (redoStack (historyState w)) c);
          reflexivity|].
  split.
  - destruct w as [h ex [c' r u'] calls]. cbn in Hc, Hu. subst c' u'. reflexivity.
  - cbn. rewrite <- app_assoc. reflexivity.
Qed.

Lemma undo_then_redo_witness :
  ∃ w1 w2,
    undo (Examples.world ∅ (historyOf (Some 5%nat) [3%nat; 1%nat] [2%nat]))
      = Some (tt, w1) ∧
    redo w1 = Some (tt, w2) ∧
    historyState w2 = historyOf (Some 5%nat) [3%nat; 1%nat] [2%nat] ∧
    editorCalls w2 = [1%nat; 5%nat].
Proof.
  apply (undo_then_redo
           (Examples.world ∅ (historyOf (Some 5%nat) [3%nat; 1%nat] [2%nat]))
           5%nat 1%nat [3%nat]).
  - reflexivity.
  - reflexivity.
  - right. reflexivity.
Defined.

(** X16: with a current view model, when the undo stack is empty or the
    view model on top of the redo stack has dirty nodes, [redo] followed by
    [undo] brings back the history state of before. *)
Theorem redo_then_undo (w : World) (c b : ViewModelRef) (r : list ViewModelRef) :
  current (historyState w) = Some c →
  redoStack (historyState w) = r ++ [b] →
  undoStack (historyState w) = [] ∨ hasDirtyNodes (heap w b) = true →
  ∃ w1 w2,
    redo w = Some (tt, w1) ∧
    undo w1 = Some (tt, w2) ∧
    historyState w2 = historyState w.
Proof.
  intros Hc Hr Hcase. eexists _, _.
  split; [exact (redo_nonempty_stack w r b Hr)|].
  split.
  - apply (undo_push_current_at _ b (undoStack (historyState w)) c).
    + reflexivity.
    + cbn. rewrite Hc. reflexivity.
    + destruct Hcase as [Hu|Hd]; [left; exact Hu|right].
      cbn. unfold heap_markDirty. rewrite decide_True by reflexivity. exact Hd.
  - destruct w as [h ex [c' r' u] calls]. cbn in Hc, Hr. subst c' r'. reflexivity.
Qed.

Lemma redo_then_undo_witness :
  ∃ w1 w2,
    redo (Examples.world ∅ (historyOf (Some 1%nat) [3%nat] [2%nat]))
      = Some (tt, w1) ∧
    undo w1 = Some (tt, w2) ∧
    historyState w2 = historyOf (Some 1%nat) [3%nat] [2%nat].
Proof.
  apply (redo_then_undo
           (Examples.world ∅ (historyOf (Some 1%nat) [3%nat] [2%nat]))
           1%nat 2%nat []).
  - reflexivity.
  - reflexivity.
  - right. reflexivity.
Defined.

(** X17: [redo] always returns and never changes the timeline (undo stack,
    current view model, redo stack from its top down): it only moves the
    current position one step forward. *)
Theorem redo_keeps_timeline (w : World) :
  ∃ w',
    redo w = Some (tt, w') ∧
    timeline (historyState w') = timeline (historyState w).
Proof.
  destruct (redo_cases w) as [[_ Hredo]|(r & b & Hr & Hredo)].
  - exists w. split; [exact Hredo|reflexivity].
  - eexists. split; [exact Hredo|].
    unfold timeline.
    cbn [historyState restored historyOf undoStack redoStack current].
    rewrite Hr, reverse_snoc.
    destruct (current (historyState w)); cbn [option_list option_rect app];
      rewrite <- ?app_assoc; reflexivity.
Qed.

(** X18: [undo] always returns.  When there is a current view model
    without dirty nodes and the undo stack has two entries or more, the
    current view model drops out of the timeline; in every other case the
    timeline is unchanged. *)
Theorem undo_keeps_timeline (w : World) :
  ∃ w',
    undo w = Some (tt, w') ∧
    ((∃ c, current (historyState w) = Some c ∧
           hasDirtyNodes (heap w c) = false ∧
           (2 ≤ length (undoStack (historyState w)))%nat) →
     timeline (historyState w')
       = undoStack (historyState w) ++ reverse (redoStack (historyState w))) ∧
    (¬ (∃ c, current (historyState w) = Some c ∧
             hasDirtyNodes (heap w c) = false ∧
             (2 ≤ length (undoStack (historyState w)))%nat) →
     timeline (historyState w') = timeline (historyState w)).
Proof.
  destruct (undo_cases w)
    as [[Hu Hundo]|[(u & a & Hc & Hu & Hundo)|[(c & u & a & b & Hc & Hu & Hd & Hundo)
       |(c & u & a & Hc & Hu & Hcase & Hundo)]]];
    eexists; (split; [exact Hundo|]); unfold timeline;
    cbn [historyState restored historyOf undoStack redoStack current];
    rewrite ?Hu, ?Hc; cbn [option_list option_rect].
  - split; [|reflexivity].
    intros (c & _ & _ & Hlen). cbn in Hlen. lia.
  - split; [|rewrite <- app_assoc; reflexivity].
    intros (c & Hc' & _). discriminate.
  - split.
    + intros _. rewrite reverse_snoc.
      change (u ++ [a; b]) with (u ++ [a] ++ [b]).
      rewrite <- !app_assoc. reflexivity.
    + intros Hn. contradict Hn. exists c. split; [reflexivity|].
      split; [exact Hd|]. rewrite length_app. cbn. lia.
  - split.
    + intros (c' & [= <-] & Hd & Hlen). destruct Hcase as [->|Hd'].
      * cbn in Hlen. lia.
      * congruence.
    + intros _. rewrite reverse_snoc, <- app_assoc. reflexivity.
Qed.

(** ** The two event handlers and the setter *)

(** X19: [handleBeforeInput] always returns.  It calls [preventDefault]
    exactly for the input types [historyUndo] and [historyRedo], also when
    the stack in question is empty; it then does what [undo], respectively
    [redo], does, and for any other input type it changes nothing. *)
Theorem handleBeforeInput_table (event : InputEvent) (w : World) :
  ∃ prevented w',
    handleBeforeInput event w = Some (prevented, w') ∧
    (prevented = true ↔
       inputType event = "historyUndo" ∨ inputType event = "historyRedo") ∧
    (inputType event = "historyUndo" → undo w = Some (tt, w')) ∧
    (inputType event = "historyRedo" → redo w = Some (tt, w')) ∧
    (prevented = false → w' = w).
Proof.
  unfold handleBeforeInput.
  destruct (decide (inputType event = "historyUndo")) as [Hu|Hu].
  - destruct (undo_total w) as [[[] w'] Hundo].
    exists true, w'. unfold bind. rewrite Hundo. split; [reflexivity|].
    split; [tauto|]. split; [intros _; reflexivity|].
    split; [|discriminate]. intros Hr. rewrite Hu in Hr. discriminate.
  - destruct (decide (inputType event = "historyRedo")) as [Hr|Hr].
    + destruct (redo_total w) as [[[] w'] Hredo].
      exists true, w'. unfold bind. rewrite Hredo. split; [reflexivity|].
      split; [tauto|]. split; [intros Hu'; contradiction|].
      split; [intros _; reflexivity|discriminate].
    + exists false, w. split; [reflexivity|].
      split; [split; [discriminate|tauto]|].
      split; [intros Hu'; contradiction|].
      split; [intros Hr'; contradiction|reflexivity].
Qed.

(** X20: [handleKeyDown] always returns.  While the editor is composing it
    changes nothing, whatever the key; otherwise an undo key does what
    [undo] does, also when the key counts as a redo key too, a redo key
    that is no undo key does what [redo] does, and any other key changes
    nothing. *)
Theorem handleKeyDown_table (isComposing : bool) (event : KeyboardEvent)
    (w : World) :
  ∃ w',
    handleKeyDown isComposing event w = Some (tt, w') ∧
    (isComposing = true → w' = w) ∧
    (isComposing = false → isUndo event = true → undo w = Some (tt, w')) ∧
    (isComposing = false → isUndo event = false → isRedo event = true →
     redo w = Some (tt, w')) ∧
    (isUndo event = false → isRedo event = false → w' = w).
Proof.
  unfold handleKeyDown. destruct isComposing.
  { exists w. split; [reflexivity|]. split; [reflexivity|].
    split; [discriminate|]. split; [discriminate|reflexivity]. }
  destruct (isUndo event).
  - destruct (undo_total w) as [[[] w'] Hundo]. exists w'.
    split; [exact Hundo|]. split; [discriminate|].
    split; [intros _ _; exact Hundo|]. split; discriminate.
  - destruct (isRedo event).
    + destruct (redo_total w) as [[[] w'] Hredo]. exists w'.
      split; [exact Hredo|]. split; [discriminate|].
      split; [discriminate|]. split; [intros _ _ _; exact Hredo|discriminate].
    + exists w. split; [reflexivity|]. split; [discriminate|].
      split; [discriminate|]. split; [discriminate|reflexivity].
Qed.


(** ** Any sequence of events *)

Lemma undo_step (w w' : World) :
  undo w = Some (tt, w') →
  (w' = w ∨ ∃ a hs, w' = restored a hs w) ∧
  held (historyState w') ⊆ held (historyState w).
Proof.
  destruct (undo_cases w)
    as [[Hu Hundo]|[(u & a & Hc & Hu & Hundo)|[(c & u & a & b & Hc & Hu & Hd & Hundo)
       |(c & u & a & Hc & Hu & Hcase & Hundo)]]];
    rewrite Hundo; intros [= <-].
  - split; [left; reflexivity|]. intros x Hx. exact Hx.
  - split; [right; eauto|].
    destruct (historyState w) as [c' r u']. cbn in Hc, Hu. subst c' u'.
    list_subset.
  - split; [right; eauto|].
    destruct (historyState w) as [c' r u']. cbn in Hc, Hu. subst c' u'.
    list_subset.
  - split; [right; eauto|].
    destruct (historyState w) as [c' r u']. cbn in Hc, Hu. subst c' u'.
    list_subset.
Qed.

Lemma redo_step (w w' : World) :
  redo w = Some (tt, w') →
  (w' = w ∨ ∃ a hs, w' = restored a hs w) ∧
  held (historyState w') ⊆ held (historyState w).
Proof.
  destruct (redo_cases w) as [[_ Hredo]|(r & b & Hr & Hredo)];
    rewrite Hredo; intros [= <-].
  - split; [left; reflexivity|]. intros x Hx. exact Hx.
  - split; [right; eauto|].
    destruct (historyState w) as [[c|] r' u]; cbn in Hr; subst r'; list_subset.
Qed.

Lemma applyChange_step (w w' : World) (viewModel : ViewModelRef) :
  applyChange viewModel w = Some (tt, w') →
  (heap w' = heap w ∧ editorCalls w' = editorCalls w) ∧
  held (historyState w') ⊆ viewModel :: held (historyState w).
Proof.
  destruct (applyChange_cases w viewModel)
    as [[Hc Happ]|[(Hne & Hd & Happ)|(a & w1 & Hne & Hd & Hdec & Happ)]];
    rewrite Happ; intros [= <-].
  - split; [split; reflexivity|]. intros x Hx. right. exact Hx.
  - split; [split; reflexivity|]. unfold with_history. cbn [historyState].
    destruct (historyState w) as [[c|] r u]; list_subset.
  - assert (heap w1 = heap w ∧ editorCalls w1 = editorCalls w ∧
            historyState w1 = historyState w) as (Hh & He & Hhs).
    { destruct (decide (viewModel ∈ viewModelsWithoutHistory w)) as [Hin|Hnin].
      - rewrite getMergeAction_exempt in Hdec by exact Hin.
        injection Hdec as _ <-. repeat split.
      - rewrite getMergeAction_not_exempt in Hdec by exact Hnin.
        injection Hdec as _ <-. repeat split. }
    split; [destruct a; split; assumption|].
    destruct a; unfold with_history; cbn [historyState]; rewrite Hhs;
      destruct (historyState w) as [[c|] r u]; list_subset.
Qed.

Lemma dispatch_step (e : Event) (w w' : World) :
  dispatch e w = Some (tt, w') →
  ((heap w' = heap w ∧ editorCalls w' = editorCalls w)
   ∨ ∃ a hs, w' = restored a hs w) ∧
  held (historyState w') ⊆ supplied e ++ held (historyState w).
Proof.
  assert (∀ m : M unit,
            (∀ w', m w = Some (tt, w') →
                   (w' = w ∨ ∃ a hs, w' = restored a hs w) ∧
                   held (historyState w') ⊆ held (historyState w)) →
            m w = Some (tt, w') →
            ((heap w' = heap w ∧ editorCalls w' = editorCalls w)
             ∨ ∃ a hs, w' = restored a hs w) ∧
            held (historyState w') ⊆ [] ++ held (historyState w)) as Hmove.
  { intros m Hm Hrun. destruct (Hm w' Hrun) as [[->|Hres] Hsub].
    - split; [left; split; reflexivity|exact Hsub].
    - split; [right; exact Hres|exact Hsub]. }
  destruct e as [viewModel|isComposing event|event|u r]; cbn [dispatch supplied].
  - intros Happ. destruct (applyChange_step w w' viewModel Happ) as [Hst Hsub].
    split; [left; exact Hst|exact Hsub].
  - apply Hmove. intros w''. unfold handleKeyDown.
    destruct isComposing; [|destruct (isUndo event); [|destruct (isRedo event)]].
    + intros [= <-]. split; [left; reflexivity|]. intros x Hx. exact Hx.
    + apply undo_step.
    + apply redo_step.
    + intros [= <-]. split; [left; reflexivity|]. intros x Hx. exact Hx.
  - apply Hmove. intros w''. unfold handleBeforeInput, bind.
    destruct (decide (inputType event = "historyUndo"));
      [|destruct (decide (inputType event = "historyRedo"))].
    + destruct (undo w) as [[[] w1]|] eqn:Hundo; [|discriminate].
      intros [= <-]. apply undo_step. exact Hundo.
    + destruct (redo w) as [[[] w1]|] eqn:Hredo; [|discriminate].
      intros [= <-]. apply redo_step. exact Hredo.
    + intros [= <-]. split; [left; reflexivity|]. intros x Hx. exact Hx.
  - unfold setHistoryState. mstep. intros [= <-].
    split; [left; split; reflexivity|].
    destruct (historyState w) as [[c|] r0 u0]; list_subset.
Qed.

Lemma dispatchAll_cons (e : Event) (es : list Event) (w w' : World) :
  dispatchAll (e :: es) w = Some (tt, w') →
  ∃ w1, dispatch e w = Some (tt, w1) ∧ dispatchAll es w1 = Some (tt, w').
Proof.
  cbn [dispatchAll]. unfold bind.
  destruct (dispatch e w) as [[[] w1]|]; [|discriminate].
  intros Hrest. exists w1. split; [reflexivity|exact Hrest].
Qed.


(** X23: undo and redo invent nothing: after any sequence of events on a
    fresh history state, every view model in the undo stack, in the current
    slot or in the redo stack was handed to the hook by an update or by a
    setter call of that sequence. *)
Theorem held_view_models_were_supplied (es : list Event) (w w' : World) :
  historyState w = initialHistoryState →
  dispatchAll es w = Some (tt, w') →
  ∀ v, v ∈ held (historyState w') → v ∈ flat_map supplied es.
Proof.
  intros Hinit Hrun.
  assert (∀ es w w',
            dispatchAll es w = Some (tt, w') →
            held (historyState w') ⊆ flat_map supplied es ++ held (historyState w))
    as Hgen.
  { clear. induction es as [|e es IH]; intros w w' Hrun.
    - injection Hrun as <-. intros x Hx. exact Hx.
    - apply dispatchAll_cons in Hrun as (w1 & Hstep & Hrest).
      destruct (dispatch_step e w w1 Hstep) as [_ Hsub].
      specialize (IH w1 w' Hrest). intros x Hx.
      cbn [flat_map]. apply IH in Hx.
      rewrite !elem_of_app in *. destruct Hx as [Hx|Hx]; [tauto|].
      apply Hsub in Hx. rewrite elem_of_app in Hx. tauto. }
  intros v Hv. apply (Hgen es w w' Hrun) in Hv.
  rewrite Hinit in Hv. cbn in Hv. rewrite app_nil_r in Hv. exact Hv.
Qed.


Lemma held_view_models_were_supplied_witness :
  5%nat ∈ flat_map supplied
            [Update 1%nat; Update 5%nat;
             BeforeInput {| inputType := "historyUndo" |};
             KeyDown false {| isUndo := false; isRedo := true |}].
Proof.
  apply (held_view_models_were_supplied
           [Update 1%nat; Update 5%nat;
            BeforeInput {| inputType := "historyUndo" |};
            KeyDown false {| isUndo := false; isRedo := true |}]
           (Examples.world ∅ initialHistoryState)
           (restored 5%nat (historyOf (Some 5%nat) [1%nat] [])
              (restored 1%nat (historyOf (Some 1%nat) [] [5%nat])
                 (Examples.world ∅ (historyOf (Some 5%nat) [1%nat] []))))).
  - reflexivity.
  - vm_compute. reflexivity.
  - cbn. right. left.
Defined.
